(** * OnlyPlans: the post controller (likes, comments, feed, single-post view)

    A shallow embedding of the Express handlers of the post controller
    ([likePost], [unlikePost], [createComment], [getFeed], [getPostById])
    over an explicit model of the MongoDB collections they read and write.

    Every collection is a finite map from [_id] to the stored fields, so an
    [_id] names at most one document, as in MongoDB.  Nothing in the
    controller forbids two Like records for one (postId, likedBy) pair, and
    the model does not either.  Handlers that write are computations in a
    small state-and-trace monad: the trace records every [save],
    [deleteOne] and the response, in program order.

    The second part of the file embeds the rest of the controller
    ([createPost], [updatePost], [getLikedPosts], [getComments],
    [getReplies]), the routes of its router, the middleware
    ([requireToken], [requireRoles], [exceptRoles], [parseToken]) and the
    pre-save hook of the Post schema. *)

From Stdlib Require Import ZArith QArith Lia.
From stdpp Require Import base option list sorting gmap strings.

Local Open Scope Z_scope.
Local Open Scope N_scope.
Local Open Scope nat_scope.

(** ** Documents *)

(** A well-formed Mongo ObjectId. *)
Definition ObjectId := N.

(** A hydrated document: the stored fields together with their [_id]. *)
Record Doc (A : Type) := mkDoc { _id : ObjectId; doc : A }.
Arguments mkDoc {A} _ _.
Arguments _id {A} _.
Arguments doc {A} _.

Module PostType.
Inductive t := Normal | Meal | MealPlan | Workout.
End PostType.

Inductive AspectRatio := square | landscape | portrait.

(** The Post schema.  The three reference fields are type parameters so that
    [populate] is a change of parameter: a stored post refers to its
    creator, meal and meal plan by id, a populated one embeds the
    documents. *)
Record PostOf (C M MP : Type) := mkPost {
  title : string;
  creator : C;
  tier : option ObjectId;
  description : string;
  media : list string;
  documents : list string;
  likedCount : Z;
  commentCount : Z;
  date : Z;
  type : PostType.t;
  meal : option M;
  mealPlan : option MP;
  aspectRatio : option AspectRatio;
}.
Arguments mkPost {C M MP}.
Arguments title {C M MP} _.
Arguments creator {C M MP} _.
Arguments tier {C M MP} _.
Arguments description {C M MP} _.
Arguments media {C M MP} _.
Arguments documents {C M MP} _.
Arguments likedCount {C M MP} _.
Arguments commentCount {C M MP} _.
Arguments date {C M MP} _.
Arguments type {C M MP} _.
Arguments meal {C M MP} _.
Arguments mealPlan {C M MP} _.
Arguments aspectRatio {C M MP} _.

Abbreviation Post := (PostOf ObjectId ObjectId ObjectId).

(** Modelled from the spec: models/user.js is not part of the sources; the
    fields are those of the data model (id, handle, profilePicture, role,
    email, write-only password). *)
Module User.
Record t := mk {
    handle : string;
    profilePicture : string;
    role : string;
    email : string;
    password : string;
  }.
End User.

(** Modelled from the spec: models/like.js is not part of the sources; a
    Like has an id, a postId and the id of the user it is likedBy. *)
Module Like.
Record t := mk { postId : ObjectId; likedBy : ObjectId }.
End Like.

(** Modelled from the spec: models/comment.js is not part of the sources; a
    Comment has an id, postId, userId, body, an optional parent repliedTo,
    a replyCount and its creation time. *)
Module Comment.
Record t := mk {
    postId : ObjectId;
    userId : ObjectId;
    body : string;
    repliedTo : option ObjectId;
    replyCount : Z;
    createdAt : Z;
  }.
End Comment.

(** Modelled from the spec: models/meal.js is not part of the sources; the
    controller touches [ingredients] and [steps] only, the remaining fields
    are carried as uninterpreted key/value pairs. *)
Module Meal.
Record t := mk {
    ingredients : list string;
    steps : list string;
    others : list (string * string);
  }.
End Meal.

(** Modelled from the spec: models/mealPlan.js is not part of the sources
    and the controller never looks inside a meal plan. *)
Module MealPlan.
Record t := mk { others : list (string * string) }.
End MealPlan.

(** A post as [findById(..).populate('meal').populate('mealPlan')] yields it. *)
Abbreviation PostWithMeal := (PostOf ObjectId (Doc Meal.t) (Doc MealPlan.t)).
(** A post as [find(..).populate('creator')] yields it; a reference that
    resolves to no user is populated with null. *)
Abbreviation PostWithCreator := (PostOf (option (Doc User.t)) ObjectId ObjectId).

(** ** Requests and responses *)

(** A request carries its ids as ObjectIds, that is, already cast; the cast
    of the path's id and its failure are modelled by [withId], further
    down. *)

Record Request := mkReq {
  params_id : ObjectId;                 (* req.params.id *)
  user : option (Doc User.t);           (* req.user, set by parseToken *)
  query_limit : option N;               (* req.query.limit, absent or a numeral *)
  query_skip : option N;                (* req.query.skip *)
  query_repliedTo : option ObjectId;    (* req.query.repliedTo *)
  body : string;                        (* req.body of a comment *)
  now : Z;                              (* the clock when the request is served *)
}.

Record FeedEntry := mkEntry {
  post : Doc Post;
  locked : bool;
  userHandle : string;
  userProfilePicture : string;
  userRole : string;
}.

Inductive Payload :=
| JPost (p : Doc Post)
| JPostWithMeal (p : Doc PostWithMeal)
| JComment (c : Doc Comment.t)
| JFeed (l : list FeedEntry)
| JErr (err : string).

(** What a failing statement throws; the handlers' catch passes it on. *)
Inductive JsError := TypeError.

(** [Res s p] is [res.status(s).json(p)] ([res.json(p)] has status 200);
    [Next e] is [next(e)], the error path. *)
Inductive Response :=
| Res (status : nat) (p : Payload)
| Next (e : JsError).

(** ** The store and the handler monad *)

Record Db := mkDb {
  users : gmap ObjectId User.t;
  posts : gmap ObjectId Post;
  meals : gmap ObjectId Meal.t;
  mealPlans : gmap ObjectId MealPlan.t;
  likes : gmap ObjectId Like.t;
  comments : gmap ObjectId Comment.t;
  nextId : ObjectId;                    (* source of fresh ObjectIds *)
}.

Inductive Event :=
| PostSaved (p : Doc Post)              (* post.save() *)
| LikeSaved (l : Doc Like.t)            (* like.save() *)
| LikeDeleted (id : ObjectId)           (* Like.deleteOne({_id}) *)
| CommentSaved (c : Doc Comment.t)      (* comment.save() *)
| Responded (r : Response).

Definition M (A : Type) : Type := Db → A * Db * list Event.

#[export] Instance M_ret : MRet M := λ A a db, (a, db, []).
#[export] Instance M_bind : MBind M := λ A B f m db,
  let '(a, db1, t1) := m db in
  let '(b, db2, t2) := f a db1 in
  (b, db2, t1 ++ t2).

Definition emit (e : Event) : M unit := λ db, (tt, db, [e]).
Definition respond (r : Response) : M unit := emit (Responded r).

Definition set_posts (f : gmap ObjectId Post → gmap ObjectId Post) (db : Db) : Db :=
  mkDb (users db) (f (posts db)) (meals db) (mealPlans db) (likes db)
       (comments db) (nextId db).
Definition set_likes (f : gmap ObjectId Like.t → gmap ObjectId Like.t) (db : Db) : Db :=
  mkDb (users db) (posts db) (meals db) (mealPlans db) (f (likes db))
       (comments db) (nextId db).
Definition set_comments (f : gmap ObjectId Comment.t → gmap ObjectId Comment.t)
    (db : Db) : Db :=
  mkDb (users db) (posts db) (meals db) (mealPlans db) (likes db)
       (f (comments db)) (nextId db).
Definition bump_nextId (db : Db) : Db :=
  mkDb (users db) (posts db) (meals db) (mealPlans db) (likes db)
       (comments db) (N.succ (nextId db)).

(** *** Post *)

Definition Post_findById (id : ObjectId) : M (option (Doc Post)) := λ db,
  (mkDoc id <$> posts db !! id, db, []).

(** [post.save()].  The schema's pre-save hook returns at once unless
    [media] was modified, which no handler modelled here does. *)
Definition Post_save (p : Doc Post) : M unit := λ db,
  (tt, set_posts <[_id p := doc p]> db, [PostSaved p]).

Definition with_likedCount (n : Z) (p : Post) : Post :=
  mkPost (title p) (creator p) (tier p) (description p) (media p) (documents p)
         n (commentCount p) (date p) (type p) (meal p) (mealPlan p)
         (aspectRatio p).
Definition with_commentCount (n : Z) (p : Post) : Post :=
  mkPost (title p) (creator p) (tier p) (description p) (media p) (documents p)
         (likedCount p) n (date p) (type p) (meal p) (mealPlan p)
         (aspectRatio p).

Definition on_doc_to {A B} (f : A → B) (d : Doc A) : Doc B := mkDoc (_id d) (f (doc d)).
Definition on_doc {A} (f : A → A) (d : Doc A) : Doc A := on_doc_to f d.

(** *** Like *)

Definition like_matches (postId likedBy : ObjectId) (l : ObjectId * Like.t) : bool :=
  (Like.postId l.2 =? postId)%N && (Like.likedBy l.2 =? likedBy)%N.

Definition hydrate {A} (kv : ObjectId * A) : Doc A := mkDoc kv.1 kv.2.

(** [Like.findOne({postId, likedBy})]: some matching record, if there is one. *)
Definition Like_findOne (postId likedBy : ObjectId) : M (option (Doc Like.t)) := λ db,
  (hydrate <$> List.find (like_matches postId likedBy) (map_to_list (likes db)),
   db, []).

(** [new Like(l)], which draws a fresh [_id], followed by [like.save()]. *)
Definition Like_create (l : Like.t) : M (Doc Like.t) := λ db,
  let d := mkDoc (nextId db) l in
  (d, bump_nextId (set_likes <[_id d := doc d]> db), [LikeSaved d]).

(** [Like.deleteOne({_id: id})]. *)
Definition Like_deleteOne (id : ObjectId) : M unit := λ db,
  (tt, set_likes (delete id) db, [LikeDeleted id]).

(** ** likePost and unlikePost *)

Definition likePost (req : Request) : M unit :=
  post ← Post_findById (params_id req);
  match post with
  | None => respond (Res 404 (JErr "Post not found"))
  | Some post =>
    match user req with
    | None => respond (Next TypeError)        (* req.user._id *)
    | Some u =>
      like ← Like_findOne (params_id req) (_id u);
      post ← match like with
             | None =>
               _ ← Like_create (Like.mk (params_id req) (_id u));
               mret (on_doc (λ p, with_likedCount (likedCount p + 1) p) post)
             | Some _ => mret post
             end;
      Post_save post;;
      respond (Res 200 (JPost post))
    end
  end.

Definition unlikePost (req : Request) : M unit :=
  post ← Post_findById (params_id req);
  match post with
  | None => respond (Res 404 (JErr "Post not found"))
  | Some post =>
    match user req with
    | None => respond (Next TypeError)        (* req.user._id *)
    | Some u =>
      like ← Like_findOne (params_id req) (_id u);
      post ← match like with
             | Some like =>
               Like_deleteOne (_id like);;
               mret (on_doc (λ p, with_likedCount (likedCount p - 1) p) post)
             | None => mret post
             end;
      Post_save post;;
      respond (Res 200 (JPost post))
    end
  end.

(** *** Comment *)

(** [Comment.findById(id)]; [findById(undefined)] finds nothing. *)
Definition Comment_findById (id : option ObjectId) : M (option (Doc Comment.t)) := λ db,
  (id ≫= (λ i, mkDoc i <$> comments db !! i), db, []).

(** [new Comment(c)], which draws a fresh [_id], followed by [comment.save()]. *)
Definition Comment_create (c : Comment.t) : M (Doc Comment.t) := λ db,
  let d := mkDoc (nextId db) c in
  (d, bump_nextId (set_comments <[_id d := doc d]> db), [CommentSaved d]).

(** [comment.save()] on a document read from the store. *)
Definition Comment_save (c : Doc Comment.t) : M unit := λ db,
  (tt, set_comments <[_id c := doc c]> db, [CommentSaved c]).

Definition with_replyCount (n : Z) (c : Comment.t) : Comment.t :=
  Comment.mk (Comment.postId c) (Comment.userId c) (Comment.body c)
             (Comment.repliedTo c) n (Comment.createdAt c).

(** JavaScript truthiness of a value that is an object or null/undefined. *)
Definition truthy {A} (o : option A) : bool :=
  match o with Some _ => true | None => false end.

(** ** createComment *)

(** The guard [(repliedTo && !rplyComment) ||
    (repliedTo && rplyComment.postId.equals(req.params.id) === false)];
    the second disjunct is only evaluated when the first is false, so
    [rplyComment] is not null where its [postId] is read. *)
Definition reply_target_missing (repliedTo : option ObjectId)
    (rplyComment : option (Doc Comment.t)) (id : ObjectId) : bool :=
  (truthy repliedTo && negb (truthy rplyComment))
  || (truthy repliedTo &&
      match rplyComment with
      | Some c => negb (Comment.postId (doc c) =? id)%N
      | None => false
      end).

Definition createComment (req : Request) : M unit :=
  post ← Post_findById (params_id req);
  match post with
  | None => respond (Res 404 (JErr "Post not found"))
  | Some post =>
    let repliedTo := query_repliedTo req in
    rplyComment ← Comment_findById repliedTo;
    if reply_target_missing repliedTo rplyComment (params_id req)
    then respond (Res 404 (JErr "Comment not found"))
    else
      match user req with
      | None => respond (Next TypeError)      (* req.user._id *)
      | Some u =>
        comment ← Comment_create
          (Comment.mk (params_id req) (_id u) (body req) repliedTo 0 (now req));
        let post := on_doc (λ p, with_commentCount (commentCount p + 1) p) post in
        Post_save post;;
        respond (Res 200 (JComment comment));;
        if truthy repliedTo then
          match rplyComment with
          | Some c =>
            Comment_save
              (on_doc (λ c, with_replyCount (Comment.replyCount c + 1) c) c)
          | None => respond (Next TypeError)  (* rplyComment.replyCount *)
          end
        else mret tt
      end
  end.

Fixpoint runComments (reqs : list Request) : M unit :=
  match reqs with
  | [] => mret tt
  | req :: reqs => createComment req;; runComments reqs
  end.

(** ** Populate *)

(** A post whose reference fields are replaced and whose other fields are
    kept: [populate], [post.creator = ..] and [{...post, meal}] all are
    instances. *)
Definition populated {C M MP C' M' MP'} (c : C') (m : option M') (mp : option MP')
    (p : PostOf C M MP) : PostOf C' M' MP' :=
  mkPost (title p) c (tier p) (description p) (media p) (documents p)
         (likedCount p) (commentCount p) (date p) (type p) m mp (aspectRatio p).

Definition findDoc {A} (m : gmap ObjectId A) (id : ObjectId) : option (Doc A) :=
  mkDoc id <$> m !! id.

(** [.populate('creator')] *)
Definition populate_creator (db : Db) (p : Doc Post) : Doc PostWithCreator :=
  on_doc_to (λ p, populated (findDoc (users db) (creator p)) (meal p) (mealPlan p) p) p.

(** [.populate('meal').populate('mealPlan')] *)
Definition populate_meal (db : Db) (p : Doc Post) : Doc PostWithMeal :=
  on_doc_to (λ p, populated (creator p) (meal p ≫= findDoc (meals db))
                            (mealPlan p ≫= findDoc (mealPlans db)) p) p.

(** ** Queries on the Post collection *)

(** A Mongoose query under construction.  [limit] and [skip] hold the
    JavaScript numbers they were given, which need not be integers. *)
Record Query := mkQuery {
  q_filter : Post → bool;
  q_sort : bool;                        (* {date:-1} *)
  q_limit : option Q;
  q_skip : option Q;
}.

Definition Post_find (f : Post → bool) : Query := mkQuery f false None None.
Definition sort_date_desc (q : Query) : Query :=
  mkQuery (q_filter q) true (q_limit q) (q_skip q).
Definition limit (n : Q) (q : Query) : Query :=
  mkQuery (q_filter q) (q_sort q) (Some n) (q_skip q).
Definition skip (n : Q) (q : Query) : Query :=
  mkQuery (q_filter q) (q_sort q) (q_limit q) (Some n).

(** The server reads a numeric [limit] or [skip] as a 64-bit integer,
    dropping the fraction. *)
Definition toCount (x : Q) : nat := Z.to_nat (Z.quot (Qnum x) (Z.pos (Qden x))).

Definition date_desc (a b : ObjectId * Post) : Prop := (date b.2 ≤ date a.2)%Z.

#[export] Instance date_desc_dec a b : Decision (date_desc a b).
Proof. unfold date_desc. apply _. Defined.

(** Running a query: filter, sort, then skip, then limit, whatever the order
    in which the query was built; a limit of 0 is no limit. *)
Definition Query_exec (db : Db) (q : Query) : list (Doc Post) :=
  let docs := filter (λ kv, q_filter q kv.2) (map_to_list (posts db)) in
  let docs := if q_sort q then merge_sort date_desc docs else docs in
  let docs := match q_skip q with
              | Some n => drop (toCount n) docs
              | None => docs
              end in
  let docs := match q_limit q with
              | Some n => if (toCount n =? 0)%nat then docs else take (toCount n) docs
              | None => docs
              end in
  hydrate <$> docs.

(** ** getFeed *)

(** [n/2 + n%2] on JavaScript numbers, where [/] is exact division.  This
    is the exact value; it is what the code computes as long as [n] is a
    safe integer, a whole number below 2^53: a double holds such an [n],
    its half and [n%2] exactly, and a sum that is rounded keeps its integer
    part.  A numeral beyond that is rounded when it is read, which this
    definition does not follow. *)
Definition halfPlusRem (n : N) : Q :=
  (inject_Z (Z.of_N n) / 2 + inject_Z (Z.of_N (n mod 2)))%Q.

Definition isFree (p : Post) : bool := negb (truthy (tier p)).   (* {tier:null} *)
Definition isGated (p : Post) : bool := truthy (tier p).         (* {tier:{$ne:null}} *)

Definition feedQuery (db : Db) (f : Post → bool) (lim skp : N) : list (Doc PostWithCreator) :=
  populate_creator db <$>
    Query_exec db
      (skip (halfPlusRem skp) (limit (halfPlusRem lim) (sort_date_desc (Post_find f)))).

(** The callback of [posts.map]; reading [user._id] of an unresolved
    creator throws. *)
Definition feedEntry (p : Doc PostWithCreator) : option FeedEntry :=
  user ← creator (doc p);
  let ret := on_doc_to (λ q, populated (_id user) (meal q) (mealPlan q) q) p in
  Some (mkEntry ret (truthy (tier (doc ret))) (User.handle (doc user))
                (User.profilePicture (doc user)) (User.role (doc user))).

Definition feedResponse (entries : option (list FeedEntry)) : Response :=
  match entries with
  | Some posts => Res 200 (JFeed posts)
  | None => Next TypeError
  end.

(** The branch taken when [!req.user]. *)
Definition feedAnonymous (db : Db) (lim skp : N) : option (list FeedEntry) :=
  mapM feedEntry (feedQuery db isFree lim skp ++ feedQuery db isGated lim skp).

(** The else branch. *)
Definition feedAuthenticated (db : Db) (lim skp : N) : option (list FeedEntry) :=
  mapM feedEntry (feedQuery db isFree lim skp ++ feedQuery db isGated lim skp).

Definition getFeed (db : Db) (req : Request) : Response :=
  let lim := default 25%N (query_limit req) in
  let skp := default 0%N (query_skip req) in
  feedResponse
    (if negb (truthy (user req)) then feedAnonymous db lim skp
     else feedAuthenticated db lim skp).

(** ** getPostById *)

Definition redact (m : Meal.t) : Meal.t := Meal.mk [] [] (Meal.others m).

Definition getPostById (db : Db) (req : Request) : Response :=
  match populate_meal db <$> findDoc (posts db) (params_id req) with
  | Some post =>
    if truthy (tier (doc post)) && negb (truthy (user req)) then
      match meal (doc post) with
      | None => Next TypeError                (* post.meal.toObject() *)
      | Some m =>
        let meal := on_doc redact m in
        Res 200 (JPostWithMeal
          (on_doc_to (λ p, populated (creator p) (Some meal) (mealPlan p) p) post))
      end
    else Res 200 (JPostWithMeal post)
  | None => Res 404 (JErr "Post not found")
  end.

(** The store and the trace a computation leaves behind. *)
Definition exec {A} (m : M A) (db : Db) : Db := (m db).1.2.
Definition trace {A} (m : M A) (db : Db) : list Event := (m db).2.

(** ** Sequences of like and unlike requests *)

Inductive LikeOp := DoLike (req : Request) | DoUnlike (req : Request).

Definition likeStep (op : LikeOp) : M unit :=
  match op with
  | DoLike req => likePost req
  | DoUnlike req => unlikePost req
  end.

Fixpoint runLikes (ops : list LikeOp) : M unit :=
  match ops with
  | [] => mret tt
  | op :: ops => likeStep op;; runLikes ops
  end.

(** The Like records that reference a post, and those of one user among them. *)
Definition likesOf (id : ObjectId) (db : Db) : gmap ObjectId Like.t :=
  filter (λ kv, Like.postId kv.2 = id) (likes db).
Definition likesOfBy (id uid : ObjectId) (db : Db) : gmap ObjectId Like.t :=
  filter (λ kv, Like.postId kv.2 = id ∧ Like.likedBy kv.2 = uid) (likes db).

(** Ids already handed out lie below [nextId]. *)
Definition likes_fresh (db : Db) : Prop :=
  map_Forall (λ k _, (k < nextId db)%N) (likes db).

Definition likedCount_consistent (db : Db) : Prop :=
  map_Forall (λ id p, likedCount p = Z.of_nat (size (likesOf id db))) (posts db).

(** ** A fixture: one creator, three free and three gated posts, one meal *)

Definition alice : User.t := User.mk "alice" "alice.png" "Creator" "alice@example.org" "".
Definition bob : User.t := User.mk "bob" "bob.png" "Consumer" "bob@example.org" "".

Definition pasta : Meal.t :=
  Meal.mk ["pasta"; "salt"] ["boil"; "serve"] [("name", "Pasta")].

Definition mkFixturePost (t : string) (tr : option ObjectId) (d : Z)
    (ty : PostType.t) (m : option ObjectId) : Post :=
  mkPost t 1%N tr "text" [] [] 0 0 d ty m None (Some square).

Definition fixture : Db :=
  mkDb {[ 1%N := alice; 2%N := bob ]}
       {[ 10%N := mkFixturePost "f1" None 5 PostType.Normal None;
          11%N := mkFixturePost "f2" None 9 PostType.Normal None;
          12%N := mkFixturePost "f3" None 7 PostType.Workout None;
          13%N := mkFixturePost "g1" (Some 30%N) 8 PostType.Meal (Some 20%N);
          14%N := mkFixturePost "g2" (Some 30%N) 6 PostType.Normal None;
          15%N := mkFixturePost "g3" (Some 30%N) 10 PostType.Normal None ]}
       {[ 20%N := pasta ]} ∅ ∅ ∅ 100%N.

Definition asUser (id : ObjectId) (u : User.t) (pid : ObjectId) : Request :=
  mkReq pid (Some (mkDoc id u)) None None None "" 0.
Definition anonymous (pid : ObjectId) : Request :=
  mkReq pid None None None None "" 0.
Definition feedRequest (u : option (Doc User.t)) (lim skp : option N) : Request :=
  mkReq 0%N u lim skp None "" 0.
Definition commentRequest (id : ObjectId) (u : User.t) (pid : ObjectId)
    (text : string) (parent : option ObjectId) : Request :=
  mkReq pid (Some (mkDoc id u)) None None parent text 0.

(** Four free posts and one gated post: five posts in all. *)
Definition lopsided : Db :=
  mkDb {[ 1%N := alice ]}
       {[ 10%N := mkFixturePost "f1" None 5 PostType.Normal None;
          11%N := mkFixturePost "f2" None 9 PostType.Normal None;
          12%N := mkFixturePost "f3" None 7 PostType.Normal None;
          13%N := mkFixturePost "f4" None 3 PostType.Normal None;
          14%N := mkFixturePost "g1" (Some 30%N) 6 PostType.Normal None ]}
       ∅ ∅ ∅ ∅ 100%N.

(** The fixture after bob's comment on post 10, which gets id 100. *)
Definition fixtureWithComment : Db :=
  exec (createComment (commentRequest 2%N bob 10%N "nice" None)) fixture.

(** The ledger invariant: the like counters agree with the Like
    collection, and no Like record sits at an id still to be handed out. *)
Definition ledger_ok (db : Db) : Prop := likes_fresh db ∧ likedCount_consistent db.

(** The replies to a comment. *)
Definition repliesTo (id : ObjectId) (db : Db) : gmap ObjectId Comment.t :=
  filter (λ kv, Comment.repliedTo kv.2 = Some id) (comments db).

(** No comment sits at, or refers to, an id still to be handed out. *)
Definition comments_fresh (db : Db) : Prop :=
  map_Forall (λ k c, (k < nextId db)%N ∧
                     ∀ r, Comment.repliedTo c = Some r → (r < nextId db)%N)
             (comments db).

Definition replyCount_consistent (db : Db) : Prop :=
  map_Forall (λ id c, Comment.replyCount c = Z.of_nat (size (repliesTo id db)))
             (comments db).

Definition comments_ok (db : Db) : Prop := comments_fresh db ∧ replyCount_consistent db.

(** The whole numbers a JavaScript number holds exactly. *)
Definition safeInteger (n : N) : Prop := (n < 2 ^ 53)%N.

(** The integer the feed's sub-limit and sub-skip come to:
    floor(n/2) + (n mod 2). *)
Definition subPage (n : N) : N := (n / 2 + n mod 2)%N.

(** A bucket of the feed queried with integer limit and skip. *)
Definition feedBucket (db : Db) (f : Post → bool) (lim skp : N) : list (Doc PostWithCreator) :=
  populate_creator db <$>
    Query_exec db
      (skip (inject_Z (Z.of_N skp))
         (limit (inject_Z (Z.of_N lim)) (sort_date_desc (Post_find f)))).

Definition with_user (u : option (Doc User.t)) (req : Request) : Request :=
  mkReq (params_id req) u (query_limit req) (query_skip req)
        (query_repliedTo req) (body req) (now req).

(** The stored free and gated posts, and the order of a feed bucket. *)
Definition freePosts (db : Db) : list (Doc Post) :=
  hydrate <$> filter (λ kv, isFree kv.2) (map_to_list (posts db)).
Definition gatedPosts (db : Db) : list (Doc Post) :=
  hydrate <$> filter (λ kv, isGated kv.2) (map_to_list (posts db)).
Definition newest_first (a b : Doc Post) : Prop := (date (doc b) ≤ date (doc a))%Z.

(** Every post's creator is a stored user. *)
Definition creators_resolve (db : Db) : Prop :=
  map_Forall (λ _ p, is_Some (users db !! creator p)) (posts db).

(** * The rest of the controller and the middleware *)

(** ** Replies *)

(** An error a handler catches or lets escape: a JavaScript error, or one
    raised while storing (a failed validation, a failed pre-save hook). *)
Inductive Fault := Js (e : JsError) | StoreError.

(** How a handler that returns its answer ends. *)
Inductive Reply (A : Type) :=
| Json (a : A)                            (* res.json(a) *)
| JsonErr (status : nat) (err : string)   (* res.status(s).json({err: "..."}) *)
| JsonFault (status : nat) (e : Fault)    (* res.status(s).json({err}), err caught *)
| Thrown (e : Fault)                      (* next(err) *)
| Unanswered (e : Fault).                 (* thrown outside try: no answer at all *)
Arguments Json {A} _.
Arguments JsonErr {A} _ _.
Arguments JsonFault {A} _ _.
Arguments Thrown {A} _.
Arguments Unanswered {A} _.

(** ** Middleware: requireToken, requireRoles, exceptRoles *)

(** A middleware calls [next()] or answers itself. *)
Inductive Gate := Pass | Deny (status : nat) (message : string).

Definition requireToken (req : Request) : Gate :=
  if negb (truthy (user req)) then Deny 401 "Unauthorized" else Pass.

(** [roles.includes(role)] *)
Definition includes (roles : list string) (role : string) : bool :=
  bool_decide (role ∈ roles).

Definition requireRoles (roles : list string) (req : Request) : Gate :=
  match user req with
  | None => Deny 401 "Unauthorized"
  | Some u =>
    if includes roles (User.role (doc u)) then Pass else Deny 401 "Unauthorized"
  end.

Definition exceptRoles (roles : list string) (req : Request) : Gate :=
  match user req with
  | None => Deny 401 "Unauthorized"
  | Some u =>
    if negb (includes roles (User.role (doc u))) then Pass
    else Deny 401 "Unauthorized"
  end.

(** The middleware of a route, run in order until one answers. *)
Fixpoint chain (mws : list (Request → Gate)) (req : Request) : Gate :=
  match mws with
  | [] => Pass
  | mw :: mws =>
    match mw req with
    | Pass => chain mws req
    | Deny s m => Deny s m
    end
  end.

(** What a route does with a request: a middleware answers, or the handler
    runs. *)
Inductive Routed (A : Type) := Denied (status : nat) (message : string) | Handled (a : A).
Arguments Denied {A} _ _.
Arguments Handled {A} _.

Definition route {A} (mws : list (Request → Gate)) (handler : Request → A)
    (req : Request) : Routed A :=
  match chain mws req with
  | Pass => Handled (handler req)
  | Deny s m => Denied s m
  end.

(** The responses in a trace. *)
Definition responses (t : list Event) : list Response :=
  omap (λ e, match e with Responded r => Some r | _ => None end) t.

(** ** getLikedPosts *)

(** [Like.find({likedBy})] *)
Definition Like_find (likedBy : ObjectId) (db : Db) : list (Doc Like.t) :=
  hydrate <$> filter (λ kv, Like.likedBy kv.2 = likedBy) (map_to_list (likes db)).

Definition getLikedPosts (db : Db) (req : Request) : Reply (list ObjectId) :=
  match user req with
  | None => Thrown (Js TypeError)             (* req.user._id *)
  | Some u => Json ((λ x, Like.postId (doc x)) <$> Like_find (_id u) db)
  end.

(** ** getComments and getReplies *)

Module CommentView.
Record t := mk {
  comment : Doc Comment.t;
  userHandle : string;
  userProfilePicture : string;
  userRole : string;
}.
End CommentView.

(** [Comment.find(filter).limit(lim).skip(skp)]: the store skips, then
    limits, whatever the order of the calls; a limit of 0 is no limit.
    Both numbers are integers here: the numeral of the query string, or
    the default. *)
Definition Comment_find (db : Db) (f : Comment.t → bool) (lim skp : N) : list (Doc Comment.t) :=
  let docs := filter (λ kv, f kv.2) (map_to_list (comments db)) in
  let docs := drop (N.to_nat skp) docs in
  hydrate <$> (if (N.to_nat lim =? 0)%nat then docs else take (N.to_nat lim) docs).

(** [.populate('userId')]: the comment with its author, null when the
    reference resolves to no user. *)
Definition populate_userId (db : Db) (c : Doc Comment.t) : Doc Comment.t * option (Doc User.t) :=
  (c, findDoc (users db) (Comment.userId (doc c))).

Definition with_userId (id : ObjectId) (c : Comment.t) : Comment.t :=
  Comment.mk (Comment.postId c) id (Comment.body c) (Comment.repliedTo c)
             (Comment.replyCount c) (Comment.createdAt c).

(** The callback of [comments.map]; reading [user._id] of an unresolved
    author throws. *)
Definition commentView (c : Doc Comment.t * option (Doc User.t)) : option CommentView.t :=
  user ← c.2;
  let ret := on_doc (with_userId (_id user)) c.1 in
  Some (CommentView.mk ret (User.handle (doc user))
                       (User.profilePicture (doc user)) (User.role (doc user))).

Definition commentsReply (views : option (list CommentView.t)) : Reply (list CommentView.t) :=
  match views with
  | Some comments => Json comments
  | None => Thrown (Js TypeError)
  end.

(** [{postId: id, repliedTo: {$eq: null}}] *)
Definition isTopLevelOf (id : ObjectId) (c : Comment.t) : bool :=
  (Comment.postId c =? id)%N && negb (truthy (Comment.repliedTo c)).

(** [{repliedTo: commId}] *)
Definition isReplyTo (commId : ObjectId) (c : Comment.t) : bool :=
  match Comment.repliedTo c with
  | Some r => (r =? commId)%N
  | None => false
  end.

Definition getComments (db : Db) (req : Request) : Reply (list CommentView.t) :=
  let skp := default 0%N (query_skip req) in
  let lim := default 25%N (query_limit req) in
  commentsReply
    (mapM commentView
       (populate_userId db <$> Comment_find db (isTopLevelOf (params_id req)) lim skp)).

(** [commId] is [req.params.commId]. *)
Definition getReplies (db : Db) (commId : ObjectId) (req : Request) : Reply (list CommentView.t) :=
  let skp := default 0%N (query_skip req) in
  let lim := default 25%N (query_limit req) in
  commentsReply
    (mapM commentView
       (populate_userId db <$> Comment_find db (isReplyTo commId) lim skp)).

Definition with_params_id (id : ObjectId) (req : Request) : Request :=
  mkReq id (user req) (query_limit req) (query_skip req) (query_repliedTo req)
        (body req) (now req).

(** ** createPost and updatePost *)

(** The body of a post request: each field of the schema a client may send,
    absent or given.  For [tier], [meal] and [mealPlan] absent and null come
    to the same, the schema's default being null. *)
Record PostBody := mkBody {
  b_title : option string;
  b_description : option string;
  b_tier : option ObjectId;
  b_media : option (list string);
  b_documents : option (list string);
  b_type : option PostType.t;
  b_meal : option ObjectId;
  b_mealPlan : option ObjectId;
  b_aspectRatio : option AspectRatio;
}.

(** A required string is present and not empty. *)
Definition required (s : option string) : option string :=
  match s with
  | Some (String a s') => Some (String a s')
  | _ => None
  end.

(** [new Post({...req.body})] with [likedCount], [commentCount], [creator]
    and [date] assigned, as validation lets it through: [title] and
    [description] are required, the other fields take the schema's defaults. *)
Definition newPost (b : PostBody) (creatorId : ObjectId) (today : Z) : option Post :=
  t ← required (b_title b);
  d ← required (b_description b);
  Some (mkPost t creatorId (b_tier b) d (default [] (b_media b))
               (default [] (b_documents b)) 0 0 today
               (default PostType.Normal (b_type b)) (b_meal b) (b_mealPlan b)
               (b_aspectRatio b)).

Definition with_aspectRatio (a : AspectRatio) (p : Post) : Post :=
  mkPost (title p) (creator p) (tier p) (description p) (media p) (documents p)
         (likedCount p) (commentCount p) (date p) (type p) (meal p) (mealPlan p)
         (Some a).

(** The comparison of the image's width and height in the pre-save hook. *)
Definition aspectOf (width height : N) : AspectRatio :=
  if (height <? width)%N then landscape
  else if (width <? height)%N then portrait
  else square.

(** The pre-save hook of the Post schema.  [probe url] is what fetching and
    measuring the image at [url] yields: its width and height, or nothing
    when the request or the decoding fails, which fails the save. *)
Definition preSave (probe : string → option (N * N)) (mediaModified : bool)
    (p : Post) : option Post :=
  if negb mediaModified then Some p
  else
    match media p with
    | [] | "" :: _ => Some (with_aspectRatio square p)      (* !obj *)
    | obj :: _ =>
      match probe obj with
      | Some (w, h) => Some (with_aspectRatio (aspectOf w h) p)
      | None => None
      end
    end.

(** [new Post(..)], which draws a fresh [_id], followed by [post.save()]. *)
Definition Post_create (p : Post) : M (Doc Post) := λ db,
  let d := mkDoc (nextId db) p in
  (d, bump_nextId (set_posts <[_id d := doc d]> db), [PostSaved d]).

(** [media] counts as modified when the body names it. *)
Definition createPost (probe : string → option (N * N)) (b : PostBody)
    (req : Request) : M (Reply (Doc Post)) :=
  match user req with
  | None => mret (Unanswered (Js TypeError))  (* req.user._id, before the try *)
  | Some u =>
    match newPost b (_id u) (now req) ≫= preSave probe (truthy (b_media b)) with
    | Some post =>
      post ← Post_create post;
      mret (Json post)
    | None => mret (JsonFault 500 StoreError)
    end
  end.

(** [new Post(body).toObject()] without [creator], [_id], [date],
    [commentCount] and [likedCount], applied to a stored post as the [$set]
    it is: fields with a default are always written, the others when the
    body has them. *)
Definition applyUpdate (b : PostBody) (p : Post) : Post :=
  mkPost (default (title p) (b_title b)) (creator p) (b_tier b)
         (default (description p) (b_description b))
         (default [] (b_media b)) (default [] (b_documents b))
         (likedCount p) (commentCount p) (date p)
         (default PostType.Normal (b_type b)) (b_meal b) (b_mealPlan b)
         (match b_aspectRatio b with Some a => Some a | None => aspectRatio p end).

(** [runValidators]: a required string that is written must not be empty. *)
Definition validUpdate (b : PostBody) : bool :=
  match b_title b, b_description b with
  | Some "", _ | _, Some "" => false
  | _, _ => true
  end.

(** [Post.findOneAndUpdate({creator, _id}, update, {returnOriginal:false})] *)
Definition Post_findOneAndUpdate (creatorId id : ObjectId) (f : Post → Post) :
    M (option (Doc Post)) := λ db,
  match (posts db !! id : option Post) with
  | Some p =>
    if (creator p =? creatorId)%N
    then (Some (mkDoc id (f p)), set_posts <[id := f p]> db, [])
    else (None, db, [])
  | None => (None, db, [])
  end.

Definition updatePost (b : PostBody) (req : Request) : M (Reply (Doc Post)) :=
  match user req with
  | None => mret (Thrown (Js TypeError))      (* req.user._id *)
  | Some u =>
    if negb (validUpdate b) then mret (Thrown StoreError)
    else
      post ← Post_findOneAndUpdate (_id u) (params_id req) (applyUpdate b);
      match post with
      | None => mret (JsonErr 500 "Post not found / Unauthorized")
      | Some post => mret (Json post)
      end
  end.

(** ** The routes of the router *)

Definition route_createPost (probe : string → option (N * N)) (b : PostBody) :=
  route [requireToken; exceptRoles ["Consumer"]] (createPost probe b).
Definition route_getLikedPosts (db : Db) :=
  route [requireToken] (getLikedPosts db).
Definition route_updatePost (b : PostBody) := route [requireToken] (updatePost b).

(** The id of the path as it arrives.  [req.params.id] is a string;
    [findById], the first call in the try block of [likePost],
    [unlikePost], [createComment] and [getPostById], casts it to an ObjectId
    and throws a CastError when it is none, which the catch passes to
    [next].  [castId] is that cast; a handler runs on the id it yields. *)
Inductive Served (A : Type) := CastFailed | Ran (a : A).
Arguments CastFailed {A}.
Arguments Ran {A} _.

Definition withId {A} (castId : string → option ObjectId) (handler : Request → A)
    (id : string) (req : Request) : Served A :=
  match castId id with
  | Some i => Ran (handler (with_params_id i req))
  | None => CastFailed
  end.

Definition route_likePost (castId : string → option ObjectId) (id : string) :=
  route [requireToken] (withId castId likePost id).
Definition route_unlikePost (castId : string → option ObjectId) (id : string) :=
  route [requireToken] (withId castId unlikePost id).
Definition route_createComment (castId : string → option ObjectId) (id : string) :=
  route [requireToken] (withId castId createComment id).

(** ** parseToken *)

(** What [jwt.verify] and the look-up of the user make of a token: a payload
    with its [userId], if any; an expired token; or any other error, that
    of a [userId] that is no ObjectId included, which the same catch
    answers. *)
Inductive Verdict := Verified (userId : option ObjectId) | TokenExpired | Invalid.

(** How [parseToken] leaves a request: handed on with [req.user] as it now
    is, answered, or neither. *)
Inductive Parsed := Continue (req : Request) | Answered (status : nat) (message : string) | Stalled.

Fixpoint strip_prefix (p s : string) : option string :=
  match p with
  | EmptyString => Some s
  | String a p' =>
    match s with
    | String b s' => if Ascii.eqb a b then strip_prefix p' s' else None
    | EmptyString => None
    end
  end.

(** No character that [.] refuses: a line feed or a carriage return. *)
Fixpoint one_line (s : string) : bool :=
  match s with
  | EmptyString => true
  | String a s' =>
    negb (Ascii.eqb a (Ascii.ascii_of_nat 10) || Ascii.eqb a (Ascii.ascii_of_nat 13))
    && one_line s'
  end.

(** [header.match(re)], [re] being "Bearer " at the start followed by a
    captured run of any characters up to the end: the captured group of a
    match. *)
Definition matchBearer (header : string) : option string :=
  match strip_prefix "Bearer " header with
  | Some rest => if one_line rest then Some rest else None
  | None => None
  end.

Definition parseToken (verify : string → Verdict) (db : Db)
    (authorization : option string) (req : Request) : Parsed :=
  match authorization ≫= matchBearer with
  | None => Continue req                            (* if (!token) next() *)
  | Some "" => Stalled                              (* token, but no token[1] *)
  | Some token =>
    match verify token with
    | Verified userId => Continue (with_user (userId ≫= findDoc (users db)) req)
    | TokenExpired => Answered 401 "Token expired"
    | Invalid => Answered 401 "Unauthorized"
    end
  end.

(** ** Likes, unlikes and comments, one after the other *)

Inductive Action :=
| ALike (req : Request)
| AUnlike (req : Request)
| AComment (req : Request).

Definition perform (a : Action) (db : Db) : Db :=
  match a with
  | ALike req => exec (likePost req) db
  | AUnlike req => exec (unlikePost req) db
  | AComment req => exec (createComment req) db
  end.

Definition performAll (acts : list Action) (db : Db) : Db :=
  foldl (λ db a, perform a db) db acts.

(** All the comments of a post, replies included. *)
Definition commentsOn (id : ObjectId) (db : Db) : gmap ObjectId Comment.t :=
  filter (λ kv, Comment.postId kv.2 = id) (comments db).

Definition commentCount_consistent (db : Db) : Prop :=
  map_Forall (λ id p, commentCount p = Z.of_nat (size (commentsOn id db))) (posts db).

(** At most one Like per post and user. *)
Definition likes_unique (db : Db) : Prop :=
  ∀ pid uid, size (likesOfBy pid uid db) ≤ 1.

(** No post sits at, and no like or comment is about, an id still to be
    handed out. *)
Definition posts_fresh (db : Db) : Prop :=
  map_Forall (λ k _, (k < nextId db)%N) (posts db) ∧
  map_Forall (λ _ l, (Like.postId l < nextId db)%N) (likes db) ∧
  map_Forall (λ _ c, (Comment.postId c < nextId db)%N) (comments db).

Definition store_ok (db : Db) : Prop :=
  ledger_ok db ∧ comments_ok db ∧ commentCount_consistent db ∧
  likes_unique db ∧ posts_fresh db.

(** Every comment's author is a stored user. *)
Definition authors_resolve (db : Db) : Prop :=
  map_Forall (λ _ c, is_Some (users db !! Comment.userId c)) (comments db).

Definition with_page (lim skp : N) (req : Request) : Request :=
  mkReq (params_id req) (user req) (Some lim) (Some skp) (query_repliedTo req)
        (body req) (now req).

(** ** More fixtures *)

(** The fixture after bob's comment and alice's reply to it (id 101). *)
Definition fixtureWithReply : Db :=
  exec (createComment (commentRequest 1%N alice 10%N "thanks" (Some 100%N)))
       fixtureWithComment.

Definition noLimit (req : Request) : Request :=
  mkReq (params_id req) (user req) (Some 0%N) None (query_repliedTo req)
        (body req) (now req).

Definition recipeBody : PostBody :=
  mkBody (Some "soup") (Some "a soup") None (Some ["http://img/soup.png"]) None
         (Some PostType.Meal) (Some 20%N) None (Some portrait).

Definition renameBody : PostBody :=
  mkBody (Some "renamed") None None None None None None None None.

(** An image service that knows one picture, 800 wide and 600 high. *)
Definition fixtureProbe (url : string) : option (N * N) :=
  if String.eqb url "http://img/soup.png" then Some (800%N, 600%N) else None.

(** A token service that knows bob's token and an expired one. *)
Definition fixtureVerify (token : string) : Verdict :=
  if String.eqb token "bob-token" then Verified (Some 2%N)
  else if String.eqb token "old-token" then TokenExpired
  else Invalid.

(** * Properties *)

(** ** Counting in a collection *)

Section counting.
Context {A : Type} (P : ObjectId * A → Prop) `{!∀ x, Decision (P x)}.
Implicit Types m : gmap ObjectId A.

Lemma size_filter_insert_fresh m k x :
    m !! k = None →
    size (filter P (<[k:=x]> m))
    = if decide (P (k, x)) then S (size (filter P m)) else size (filter P m).
  Proof.
    intros Hk. rewrite map_filter_insert. case_decide.
    - apply map_size_insert_None, map_lookup_filter_None. by left.
    - by rewrite delete_id.
  Qed.

Lemma size_filter_delete m k x :
    m !! k = Some x →
    size (filter P m)
    = if decide (P (k, x)) then S (size (filter P (delete k m)))
      else size (filter P (delete k m)).
  Proof.
    intros Hk. rewrite map_filter_delete. case_decide.
    - assert (filter P m !! k = Some x) as Hf by (by apply map_lookup_filter_Some).
      rewrite <- (insert_delete_id (filter P m) k x) at 1 by done.
      apply map_size_insert_None, lookup_delete_eq.
    - rewrite delete_id; [done|]. apply map_lookup_filter_None. right.
      intros y Hy. congruence.
  Qed.

Lemma size_filter_insert_same m k x y :
    m !! k = Some x → (P (k, x) ↔ P (k, y)) →
    size (filter P (<[k:=y]> m)) = size (filter P m).
  Proof.
    intros Hk HP. rewrite map_filter_insert. case_decide as Hy.
    - apply map_size_insert_Some. exists x. apply map_lookup_filter_Some.
      split; [done|]. by apply HP.
    - rewrite map_filter_delete, delete_id; [done|].
      apply map_lookup_filter_None. right. intros z Hz. rewrite Hk in Hz.
      injection Hz as <-. by rewrite HP.
  Qed.
End counting.

(** ** The monad *)

Lemma exec_bind {A B} (m : M A) (f : A → M B) db :
  exec (m ≫= f) db = exec (f (m db).1.1) (exec m db).
Proof.
  unfold exec, mbind, M_bind. destruct (m db) as [[a db1] t1]; simpl.
  by destruct (f a db1) as [[b db2] t2].
Qed.

Lemma trace_bind {A B} (m : M A) (f : A → M B) db :
  trace (m ≫= f) db = trace m db ++ trace (f (m db).1.1) (exec m db).
Proof.
  unfold exec, trace, mbind, M_bind. destruct (m db) as [[a db1] t1]; simpl.
  by destruct (f a db1) as [[b db2] t2].
Qed.

(** ** The engagement ledger *)

Lemma Like_findOne_Some db pid uid l :
  List.find (like_matches pid uid) (map_to_list (likes db)) = Some l →
  likes db !! l.1 = Some l.2 ∧ Like.postId l.2 = pid ∧ Like.likedBy l.2 = uid.
Proof.
  intros [Hin Hm]%find_some. apply list_elem_of_In in Hin.
  destruct l as [k v]. apply elem_of_map_to_list in Hin.
  unfold like_matches in Hm. apply andb_prop in Hm as [H1 H2].
  apply N.eqb_eq in H1, H2. done.
Qed.

Lemma Like_findOne_None db pid uid :
  List.find (like_matches pid uid) (map_to_list (likes db)) = None →
  likesOfBy pid uid db = ∅.
Proof.
  intros Hnone. apply map_empty. intros k. apply map_lookup_filter_None.
  right. intros v Hv [H1 H2]; simpl in *.
  assert (like_matches pid uid (k, v) = false) as Hf.
  { apply (find_none _ _ Hnone (k, v)), list_elem_of_In.
    by apply elem_of_map_to_list. }
  unfold like_matches in Hf; simpl in Hf.
  rewrite H1, H2, !N.eqb_refl in Hf. done.
Qed.

Ltac run_handler :=
  unfold exec, trace, likePost, unlikePost, createComment, mbind, M_bind, mret,
    M_ret, respond, emit, Post_findById, Post_save, Like_findOne, Like_create,
    Like_deleteOne, Comment_findById, Comment_create, Comment_save; simpl.

Lemma likePost_ledger_ok req db : ledger_ok db → ledger_ok (exec (likePost req) db).
Proof.
  intros [Hfresh Hcons]. run_handler.
  destruct (posts db !! params_id req) as [p|] eqn:Hp; simpl; [|done].
  destruct (user req) as [u|]; simpl; [|done].
  destruct (List.find _ _) as [l|] eqn:Hl; simpl.
  - split; [done|]. unfold likedCount_consistent; simpl.
    rewrite insert_id by done. apply Hcons.
  - assert (likes db !! nextId db = None) as Hnew.
    { destruct (likes db !! nextId db) eqn:E; [|done].
      apply Hfresh in E. simpl in E. lia. }
    split.
    + unfold likes_fresh; simpl. apply map_Forall_insert; [done|]. split; [lia|].
      eapply map_Forall_impl; [apply Hfresh|]. simpl. intros; lia.
    + unfold likedCount_consistent, likesOf; simpl.
      intros id q. rewrite size_filter_insert_fresh by done. simpl.
      destruct (decide (params_id req = id)) as [<-|Hne].
      * rewrite lookup_insert_eq. intros [= <-]. simpl.
        rewrite (Hcons _ _ Hp). unfold likesOf. lia.
      * rewrite lookup_insert_ne by done. apply Hcons.
Qed.

Lemma unlikePost_ledger_ok req db : ledger_ok db → ledger_ok (exec (unlikePost req) db).
Proof.
  intros [Hfresh Hcons]. run_handler.
  destruct (posts db !! params_id req) as [p|] eqn:Hp; simpl; [|done].
  destruct (user req) as [u|]; simpl; [|done].
  destruct (List.find _ _) as [l|] eqn:Hl; simpl.
  - apply Like_findOne_Some in Hl as (Hk & Hpid & _).
    split.
    + unfold likes_fresh; simpl. by apply map_Forall_delete.
    + unfold likedCount_consistent, likesOf; simpl. intros id q.
      pose proof (size_filter_delete (λ kv, Like.postId kv.2 = id) _ _ _ Hk) as Hsz.
      simpl in Hsz.
      destruct (decide (params_id req = id)) as [<-|Hne].
      * rewrite lookup_insert_eq. intros [= <-]. simpl.
        rewrite decide_True in Hsz by done. rewrite (Hcons _ _ Hp).
        unfold likesOf. lia.
      * rewrite lookup_insert_ne by done. rewrite decide_False in Hsz by congruence.
        intros Hq. rewrite <- Hsz. by apply Hcons.
  - split; [done|]. unfold likedCount_consistent; simpl.
    rewrite insert_id by done. apply Hcons.
Qed.

Lemma runLikes_ledger_ok ops db : ledger_ok db → ledger_ok (exec (runLikes ops) db).
Proof.
  revert db. induction ops as [|op ops IH]; intros db Hok; [done|].
  simpl. rewrite exec_bind. apply IH.
  destruct op; simpl; auto using likePost_ledger_ok, unlikePost_ledger_ok.
Qed.

(** C1: from a store in which every like counter agrees with the Like
    collection, any finite sequence of like and unlike requests, each run
    to completion before the next, leaves every post's likedCount equal to
    the number of Like records whose postId is the post's id. *)
Theorem likedCount_counts_likes (ops : list LikeOp) (db : Db) (id : ObjectId) (p : Post) :
  ledger_ok db →
  posts (exec (runLikes ops) db) !! id = Some p →
  likedCount p = Z.of_nat (size (likesOf id (exec (runLikes ops) db))).
Proof.
  intros Hok Hp. by apply (runLikes_ledger_ok ops db Hok).
Qed.

Lemma save_unchanged_post db id p :
  posts db !! id = Some p → set_posts <[id := p]> db = db.
Proof. intros Hp. destruct db; unfold set_posts; simpl in *. by rewrite insert_id. Qed.

Lemma likesOfBy_nonempty db k l :
  likes db !! k = Some l → likesOfBy (Like.postId l) (Like.likedBy l) db ≠ ∅.
Proof.
  intros Hk Hempty.
  assert (likesOfBy (Like.postId l) (Like.likedBy l) db !! k = Some l) as Hin
    by (by apply map_lookup_filter_Some).
  by rewrite Hempty in Hin.
Qed.

Lemma Like_findOne_empty db pid uid :
  likesOfBy pid uid db = ∅ →
  List.find (like_matches pid uid) (map_to_list (likes db)) = None.
Proof.
  intros Hempty. destruct (List.find _ _) as [l|] eqn:Hl; [|done].
  apply Like_findOne_Some in Hl as (Hk & <- & <-).
  by apply likesOfBy_nonempty in Hk.
Qed.

(** What [likePost] does when the caller has no Like on the post yet. *)
Lemma likePost_first req u p db :
  user req = Some u →
  posts db !! params_id req = Some p →
  likesOfBy (params_id req) (_id u) db = ∅ →
  let like := mkDoc (nextId db) (Like.mk (params_id req) (_id u)) in
  let post := mkDoc (params_id req) (with_likedCount (likedCount p + 1) p) in
  likePost req db
  = (tt,
     set_posts <[params_id req := doc post]>
       (bump_nextId (set_likes <[nextId db := doc like]> db)),
     [LikeSaved like; PostSaved post; Responded (Res 200 (JPost post))]).
Proof.
  intros Hu Hp Hnone%Like_findOne_empty. run_handler.
  rewrite Hp, Hu. simpl. by rewrite Hnone.
Qed.

(** What [likePost] does when a Like of the caller on the post exists. *)
Lemma likePost_again req u p db :
  user req = Some u →
  posts db !! params_id req = Some p →
  likesOfBy (params_id req) (_id u) db ≠ ∅ →
  let post := mkDoc (params_id req) p in
  likePost req db = (tt, db, [PostSaved post; Responded (Res 200 (JPost post))]).
Proof.
  intros Hu Hp Hsome. run_handler. rewrite Hp, Hu. simpl.
  destruct (List.find _ _) as [l|] eqn:Hl; simpl.
  - by rewrite save_unchanged_post.
  - by apply Like_findOne_None in Hl.
Qed.

(** C2: on an existing post, in a store with at most one Like of the caller
    on that post, a second like by the same caller leaves the post as the
    first like left it (so likedCount is unchanged), exactly one Like record
    of the caller on the post exists afterwards, and both calls save the
    post; the second call saves the post and nothing else. *)
Theorem likePost_idempotent (req : Request) (u : Doc User.t) (p : Post) (db : Db) :
  user req = Some u →
  posts db !! params_id req = Some p →
  likes_fresh db →
  size (likesOfBy (params_id req) (_id u) db) ≤ 1 →
  let db1 := exec (likePost req) db in
  let db2 := exec (likePost req) db1 in
  ∃ p1 : Post,
    posts db1 !! params_id req = Some p1 ∧
    posts db2 !! params_id req = Some p1 ∧
    likedCount p1 = (if decide (likesOfBy (params_id req) (_id u) db = ∅)
                     then likedCount p + 1 else likedCount p)%Z ∧
    size (likesOfBy (params_id req) (_id u) db2) = 1 ∧
    PostSaved (mkDoc (params_id req) p1) ∈ trace (likePost req) db ∧
    trace (likePost req) db1
    = [PostSaved (mkDoc (params_id req) p1);
       Responded (Res 200 (JPost (mkDoc (params_id req) p1)))].
Proof.
  intros Hu Hp Hfresh Hone db1 db2. subst db1 db2. unfold exec, trace.
  destruct (decide (likesOfBy (params_id req) (_id u) db = ∅)) as [Hnone|Hsome].
  - rewrite (likePost_first req u p db Hu Hp Hnone). simpl.
    set (db1 := set_posts _ _).
    assert (likes db !! nextId db = None) as Hnew.
    { destruct (likes db !! nextId db) eqn:E; [|done].
      apply Hfresh in E. simpl in E. lia. }
    assert (posts db1 !! params_id req
            = Some (with_likedCount (likedCount p + 1) p)) as Hp1
      by (subst db1; simpl; apply lookup_insert_eq).
    assert (size (likesOfBy (params_id req) (_id u) db1) = 1) as Hsz.
    { subst db1. unfold likesOfBy in *. simpl.
      rewrite size_filter_insert_fresh by done. simpl.
      rewrite decide_True by done. by rewrite Hnone, map_size_empty. }
    assert (likesOfBy (params_id req) (_id u) db1 ≠ ∅) as Hsome.
    { intros E. by rewrite E, map_size_empty in Hsz. }
    rewrite (likePost_again req u _ db1 Hu Hp1 Hsome). simpl.
    eexists. repeat split; try done. set_solver.
  - rewrite (likePost_again req u p db Hu Hp Hsome). simpl.
    rewrite (likePost_again req u p db Hu Hp Hsome). simpl.
    exists p. repeat split; try done; [|set_solver].
    apply Nat.le_antisymm; [done|].
    destruct (size _) eqn:E; [|lia]. by apply map_size_empty_inv in E.
Qed.

(** C7: unlike answers 404 when the post does not exist; when it exists
    and the caller has no Like on it, the store is left as it was (no Like
    is deleted, likedCount is unchanged), the post is saved and returned. *)
Theorem unlikePost_without_like (req : Request) (db : Db) :
  (posts db !! params_id req = None →
   unlikePost req db = (tt, db, [Responded (Res 404 (JErr "Post not found"))])) ∧
  (∀ (u : Doc User.t) (p : Post),
     user req = Some u →
     posts db !! params_id req = Some p →
     likesOfBy (params_id req) (_id u) db = ∅ →
     unlikePost req db
     = (tt, db, [PostSaved (mkDoc (params_id req) p);
                 Responded (Res 200 (JPost (mkDoc (params_id req) p)))])).
Proof.
  split.
  - intros Hp. run_handler. by rewrite Hp.
  - intros u p Hu Hp Hnone%Like_findOne_empty. run_handler.
    rewrite Hp, Hu. simpl. rewrite Hnone. simpl. by rewrite save_unchanged_post.
Qed.

Lemma createComment_rejects req db p r :
  posts db !! params_id req = Some p →
  query_repliedTo req = Some r →
  (comments db !! r = None ∨
   ∃ c, comments db !! r = Some c ∧ Comment.postId c ≠ params_id req) →
  createComment req db = (tt, db, [Responded (Res 404 (JErr "Comment not found"))]).
Proof.
  intros Hp Hr Hbad. run_handler. rewrite Hp, Hr. simpl.
  destruct Hbad as [Hnone|(c & Hc & Hne)].
  - by rewrite Hnone.
  - rewrite Hc. simpl. apply N.eqb_neq in Hne.
    unfold reply_target_missing; simpl. by rewrite Hne.
Qed.

(** C3: on an existing post, a comment whose repliedTo id names no comment,
    or a comment of another post, is answered with 404 and nothing is
    written: the store, and with it the Comment collection and the post's
    commentCount, is unchanged. *)
Theorem createComment_reply_target_missing (req : Request) (db : Db) (p : Post)
    (r : ObjectId) :
  posts db !! params_id req = Some p →
  query_repliedTo req = Some r →
  (comments db !! r = None ∨
   ∃ c, comments db !! r = Some c ∧ Comment.postId c ≠ params_id req) →
  createComment req db = (tt, db, [Responded (Res 404 (JErr "Comment not found"))]).
Proof. apply createComment_rejects. Qed.

(** ** Comments and replies *)

(** A top-level comment on an existing post. *)
Lemma createComment_top req u p db :
  user req = Some u →
  posts db !! params_id req = Some p →
  query_repliedTo req = None →
  let comment := mkDoc (nextId db)
    (Comment.mk (params_id req) (_id u) (body req) None 0 (now req)) in
  let post := mkDoc (params_id req) (with_commentCount (commentCount p + 1) p) in
  createComment req db
  = (tt,
     set_posts <[params_id req := doc post]>
       (bump_nextId (set_comments <[nextId db := doc comment]> db)),
     [CommentSaved comment; PostSaved post; Responded (Res 200 (JComment comment))]).
Proof. intros Hu Hp Hr. run_handler. rewrite Hp, Hr. simpl. by rewrite Hu. Qed.

(** A reply to a comment of the same post. *)
Lemma createComment_reply req u p r c db :
  user req = Some u →
  posts db !! params_id req = Some p →
  query_repliedTo req = Some r →
  comments db !! r = Some c →
  Comment.postId c = params_id req →
  let comment := mkDoc (nextId db)
    (Comment.mk (params_id req) (_id u) (body req) (Some r) 0 (now req)) in
  let post := mkDoc (params_id req) (with_commentCount (commentCount p + 1) p) in
  let parent := mkDoc r (with_replyCount (Comment.replyCount c + 1) c) in
  createComment req db
  = (tt,
     set_comments <[r := doc parent]>
       (set_posts <[params_id req := doc post]>
          (bump_nextId (set_comments <[nextId db := doc comment]> db))),
     [CommentSaved comment; PostSaved post; Responded (Res 200 (JComment comment));
      CommentSaved parent]).
Proof.
  intros Hu Hp Hr Hc Hpid. run_handler. rewrite Hp, Hr. simpl. rewrite Hc. simpl.
  unfold reply_target_missing; simpl. rewrite Hpid, N.eqb_refl. simpl.
  by rewrite Hu.
Qed.

(** Every call is one of: nothing written, a top-level comment, a reply. *)
Lemma createComment_cases req db :
  exec (createComment req) db = db ∨
  (∃ u p, user req = Some u ∧ posts db !! params_id req = Some p ∧
          query_repliedTo req = None) ∨
  (∃ u p r c, user req = Some u ∧ posts db !! params_id req = Some p ∧
              query_repliedTo req = Some r ∧ comments db !! r = Some c ∧
              Comment.postId c = params_id req).
Proof.
  destruct (posts db !! params_id req) as [p|] eqn:Hp;
    [|left; run_handler; by rewrite Hp].
  destruct (user req) as [u|] eqn:Hu.
  - destruct (query_repliedTo req) as [r|] eqn:Hr; [|right; left; eauto].
    destruct (comments db !! r) as [c|] eqn:Hc.
    + destruct (decide (Comment.postId c = params_id req)) as [Hpid|Hne].
      * right; right. by exists u, p, r, c.
      * left. unfold exec.
        by rewrite (createComment_rejects req db p r) by eauto.
    + left. unfold exec.
      by rewrite (createComment_rejects req db p r) by eauto.
  - left. run_handler. rewrite Hp. simpl.
    destruct (reply_target_missing _ _ _); simpl; [done|]. by rewrite Hu.
Qed.

Lemma comments_fresh_new db k :
  comments_fresh db → (nextId db ≤ k)%N →
  comments db !! k = None ∧ size (repliesTo k db) = 0.
Proof.
  intros Hfresh Hk. split.
  - destruct (comments db !! k) eqn:E; [|done]. apply Hfresh in E as [? _]. lia.
  - apply (map_size_empty_iff (repliesTo k db)), map_empty. intros j.
    apply map_lookup_filter_None. right. intros c Hc Hr; simpl in Hr.
    apply Hfresh in Hc as [_ Hc]. apply Hc in Hr. lia.
Qed.

Lemma createComment_comments_ok req db :
  comments_ok db → comments_ok (exec (createComment req) db).
Proof.
  intros [Hfresh Hcons].
  destruct (createComment_cases req db)
    as [->|[(u & p & Hu & Hp & Hr)|(u & p & r & c & Hu & Hp & Hr & Hc & Hpid)]];
    [done| |].
  - unfold exec. rewrite (createComment_top req u p db Hu Hp Hr). simpl.
    destruct (comments_fresh_new db (nextId db) Hfresh) as [Hnew Hzero]; [lia|].
    split.
    + unfold comments_fresh; simpl. apply map_Forall_insert; [done|]. split.
      * split; [lia|]. simpl. intros ? [=].
      * eapply map_Forall_impl; [apply Hfresh|]. simpl.
        intros k c [Hk Hc]. split; [lia|]. intros r' Hr'. apply Hc in Hr'. lia.
    + unfold replyCount_consistent, repliesTo; simpl. intros id c.
      rewrite size_filter_insert_fresh by done. simpl.
      destruct (decide (nextId db = id)) as [<-|Hne].
      * rewrite lookup_insert_eq. intros [= <-]. simpl.
        unfold repliesTo in Hzero. by rewrite Hzero.
      * rewrite lookup_insert_ne by done. apply Hcons.
  - unfold exec. rewrite (createComment_reply req u p r c db Hu Hp Hr Hc Hpid). simpl.
    destruct (comments_fresh_new db (nextId db) Hfresh) as [Hnew Hzero]; [lia|].
    pose proof (Hfresh _ _ Hc) as [Hrlt Hrref]. simpl in Hrlt, Hrref.
    assert (r ≠ nextId db) as Hrn by lia.
    assert (<[nextId db := Comment.mk (params_id req) (_id u) (body req)
                                      (Some r) 0 (now req)]> (comments db) !! r
            = Some c) as Hc' by (by rewrite lookup_insert_ne).
    split.
    + unfold comments_fresh; simpl. intros k x.
      rewrite lookup_insert_Some. intros [[<- <-]|[Hk Hx]]; simpl.
      * split; [lia|]. intros r' Hr'. apply Hrref in Hr'. lia.
      * apply lookup_insert_Some in Hx as [[<- <-]|[Hk' Hx]]; simpl.
        -- split; [lia|]. intros ? [= <-]. lia.
        -- apply Hfresh in Hx as [Hx1 Hx2]. split; [lia|].
           intros r' Hr'. apply Hx2 in Hr'. lia.
    + unfold replyCount_consistent, repliesTo; simpl. intros id x.
      rewrite (size_filter_insert_same _ _ r c) by done.
      rewrite size_filter_insert_fresh by done. simpl.
      rewrite lookup_insert_Some. intros [[<- <-]|[Hk Hx]]; simpl.
      * rewrite decide_True by done. rewrite (Hcons _ _ Hc). unfold repliesTo. lia.
      * rewrite decide_False by congruence.
        apply lookup_insert_Some in Hx as [[<- <-]|[Hk' Hx]]; simpl.
        -- unfold repliesTo in Hzero. by rewrite Hzero.
        -- by apply Hcons.
Qed.

Lemma runComments_comments_ok reqs db :
  comments_ok db → comments_ok (exec (runComments reqs) db).
Proof.
  revert db. induction reqs as [|req reqs IH]; intros db Hok; [done|].
  simpl. rewrite exec_bind. by apply IH, createComment_comments_ok.
Qed.

(** C8: from a store in which every reply counter agrees with the Comment
    collection, any sequence of createComment requests, each run to
    completion before the next, leaves every comment's replyCount (that of
    every top-level comment in particular) equal to the number of Comment
    records whose repliedTo is the comment's id; and a successful reply
    saves the new comment, saves the post, sends the response and only then
    saves the parent with its replyCount incremented, all within the call. *)
Theorem replyCount_counts_replies (reqs : list Request) (db : Db) :
  comments_ok db →
  (∀ (id : ObjectId) (c : Comment.t),
     comments (exec (runComments reqs) db) !! id = Some c →
     Comment.replyCount c
     = Z.of_nat (size (repliesTo id (exec (runComments reqs) db)))) ∧
  (∀ (req : Request) (u : Doc User.t) (p : Post) (r : ObjectId) (c : Comment.t),
     user req = Some u →
     posts db !! params_id req = Some p →
     query_repliedTo req = Some r →
     comments db !! r = Some c →
     Comment.postId c = params_id req →
     ∃ (comment : Doc Comment.t) (post : Doc Post),
       trace (createComment req) db
       = [CommentSaved comment; PostSaved post;
          Responded (Res 200 (JComment comment));
          CommentSaved (mkDoc r (with_replyCount (Comment.replyCount c + 1) c))]).
Proof.
  intros Hok. split.
  - intros id c Hc. by apply (runComments_comments_ok reqs db Hok).
  - intros req u p r c Hu Hp Hr Hc Hpid. unfold trace.
    rewrite (createComment_reply req u p r c db Hu Hp Hr Hc Hpid). simpl. eauto.
Qed.

(** ** The feed *)

Lemma toCount_inject (n : N) : toCount (inject_Z (Z.of_N n)) = N.to_nat n.
Proof. unfold toCount; simpl. rewrite Z.quot_1_r. lia. Qed.

Lemma toCount_halfPlusRem (n : N) : toCount (halfPlusRem n) = N.to_nat (subPage n).
Proof.
  unfold toCount, halfPlusRem, subPage. simpl.
  change (Z.pos (1 * 2 * 1)) with 2%Z. change (Z.pos (1 * 2)) with 2%Z.
  pose proof (N2Z.is_nonneg n). pose proof (N2Z.is_nonneg (n mod 2)).
  rewrite Z.quot_div_nonneg; [|nia|done].
  rewrite <- Z_N_nat. apply (f_equal N.to_nat), N2Z.inj.
  rewrite Z2N.id by (apply Z.div_pos; lia).
  rewrite N2Z.inj_add, N2Z.inj_div, N2Z.inj_mod, !Z.mul_1_r.
  by rewrite Z.div_add.
Qed.

Lemma subPage_double (n : N) :
  (2 * subPage n = n + n mod 2)%N ∧ ((1 ≤ n)%N → (1 ≤ subPage n)%N).
Proof.
  unfold subPage.
  pose proof (N.div_mod n 2 ltac:(done)) as Hdiv.
  pose proof (N.mod_lt n 2 ltac:(done)) as Hmod.
  revert Hdiv Hmod. generalize (n / 2)%N (n mod 2)%N. intros q r. lia.
Qed.

Lemma feedQuery_feedBucket db f lim skp :
  feedQuery db f lim skp = feedBucket db f (subPage lim) (subPage skp).
Proof.
  unfold feedQuery, feedBucket, Query_exec; simpl.
  by rewrite !toCount_halfPlusRem, !toCount_inject.
Qed.

Lemma length_feedBucket db f lim skp :
  (1 ≤ lim)%N → length (feedBucket db f lim skp) ≤ N.to_nat lim.
Proof.
  intros Hlim. unfold feedBucket, Query_exec; simpl.
  rewrite !length_fmap, !toCount_inject.
  destruct (Nat.eqb_spec (N.to_nat lim) 0) as [|_]; [lia|].
  rewrite length_take. lia.
Qed.

Lemma getFeed_unfold db req :
  getFeed db req
  = feedResponse
      (mapM feedEntry
         (feedQuery db isFree (default 25%N (query_limit req))
                    (default 0%N (query_skip req))
          ++ feedQuery db isGated (default 25%N (query_limit req))
                       (default 0%N (query_skip req)))).
Proof. unfold getFeed, feedAnonymous, feedAuthenticated. by destruct (user req). Qed.

Lemma feedResponse_entries o es :
  feedResponse o = Res 200 (JFeed es) → o = Some es.
Proof. destruct o; simpl; congruence. Qed.

(** C4 (amended): for a limit and a skip that are safe integers (below
    2^53, where the numbers of the code are exact), each bucket of the feed
    is queried with the sub-limit floor(limit/2) + (limit mod 2) and the
    sub-skip floor(skip/2) + (skip mod 2), the fractions of limit/2 and
    skip/2 being dropped by the store; and for a limit of at least 1 the
    feed has at most limit + (limit mod 2) entries, which is limit when
    limit is even and limit + 1 when it is odd. *)
Theorem getFeed_sub_limits (db : Db) (req : Request) :
  let lim := default 25%N (query_limit req) in
  let skp := default 0%N (query_skip req) in
  safeInteger lim →
  safeInteger skp →
  toCount (halfPlusRem lim) = N.to_nat (lim / 2 + lim mod 2) ∧
  toCount (halfPlusRem skp) = N.to_nat (skp / 2 + skp mod 2) ∧
  getFeed db req
  = feedResponse
      (mapM feedEntry
         (feedBucket db isFree (lim / 2 + lim mod 2) (skp / 2 + skp mod 2)
          ++ feedBucket db isGated (lim / 2 + lim mod 2) (skp / 2 + skp mod 2))) ∧
  ∀ es : list FeedEntry,
    (1 ≤ lim)%N →
    getFeed db req = Res 200 (JFeed es) →
    length es ≤ N.to_nat (lim + lim mod 2).
Proof.
  intros lim skp _ _. split; [apply toCount_halfPlusRem|].
  split; [apply toCount_halfPlusRem|].
  rewrite getFeed_unfold, !feedQuery_feedBucket. fold lim skp. clearbody lim skp.
  split; [done|]. intros es Hlim Hes%feedResponse_entries%length_mapM.
  rewrite <- Hes, length_app.
  destruct (subPage_double lim) as [Hdouble Hsub]. specialize (Hsub Hlim).
  pose proof (length_feedBucket db isFree (subPage lim) (subPage skp) Hsub).
  pose proof (length_feedBucket db isGated (subPage lim) (subPage skp) Hsub).
  fold (subPage lim) in Hdouble.
  revert Hdouble. generalize dependent (subPage lim).
  generalize (lim mod 2)%N. intros. lia.
Qed.

(** C4, as stated, fails: with limit 1 each bucket is queried with
    sub-limit 1, and a store with a free and a gated post answers with two
    entries. *)
Lemma getFeed_exceeds_odd_limit :
  ∃ es : list FeedEntry,
    getFeed fixture (feedRequest None (Some 1%N) None) = Res 200 (JFeed es) ∧
    ¬ (length es ≤ 1).
Proof. eexists. split; [vm_compute; reflexivity|]. simpl. lia. Qed.

(** With limit 0 the store applies no limit at all: the whole fixture comes
    back. *)
Example getFeed_limit_zero :
  ∃ es : list FeedEntry,
    getFeed fixture (feedRequest None (Some 0%N) None) = Res 200 (JFeed es) ∧
    length es = 6.
Proof. eexists. split; [vm_compute; reflexivity|]. reflexivity. Qed.

(** C9: the feed does not depend on who asks; the branch for anonymous
    callers and the branch for authenticated callers are the same function. *)
Theorem getFeed_same_for_all_viewers (db : Db) (req : Request) (u : Doc User.t) :
  (∀ lim skp : N, feedAnonymous db lim skp = feedAuthenticated db lim skp) ∧
  getFeed db (with_user None req) = getFeed db (with_user (Some u) req).
Proof. split; [done|]. by rewrite !getFeed_unfold. Qed.

#[local] Instance date_desc_trans : Transitive date_desc.
Proof. unfold date_desc. intros a b c ??. lia. Qed.

#[local] Instance date_desc_total : Total date_desc.
Proof. unfold date_desc. intros a b. lia. Qed.

(** An entry built from a populated post carries the stored post itself. *)
Lemma feedEntry_populated db d e :
  feedEntry (populate_creator db d) = Some e →
  post e = d ∧ locked e = truthy (tier (doc d)).
Proof.
  unfold feedEntry, populate_creator, findDoc; simpl.
  destruct (users db !! creator (doc d)) as [u|]; simpl; [|done].
  intros [= <-]; simpl. by destruct d as [i []].
Qed.

Lemma feedEntry_all db (l : list (Doc Post)) :
  Forall (λ d, is_Some (users db !! creator (doc d))) l →
  ∃ es, mapM feedEntry (populate_creator db <$> l) = Some es ∧
        post <$> es = l ∧
        Forall (λ e, locked e = truthy (tier (doc (post e)))) es.
Proof.
  induction 1 as [|d l [u Hu] _ (es & Hes & Hposts & Hlocked)].
  - by exists [].
  - destruct (feedEntry (populate_creator db d)) as [e|] eqn:He.
    + exists (e :: es). split.
      { apply mapM_Some. rewrite fmap_cons. constructor; [done|].
        by apply mapM_Some. }
      apply feedEntry_populated in He as [Hd Hl].
      split; [by rewrite fmap_cons, Hd, Hposts|].
      constructor; [by rewrite Hl, Hd|done].
    + unfold feedEntry, populate_creator, findDoc in He; simpl in He.
      by rewrite Hu in He.
Qed.

Lemma mapM_app_Some {A B} (f : A → option B) l1 l2 k1 k2 :
  mapM f l1 = Some k1 → mapM f l2 = Some k2 → mapM f (l1 ++ l2) = Some (k1 ++ k2).
Proof. rewrite !mapM_Some. apply Forall2_app. Qed.

(** A bucket that fits its sub-limit, with nothing skipped, is the whole
    sorted bucket. *)
Lemma feedBucket_all db (f : Post → bool) lim :
  length (filter (λ kv : ObjectId * Post, f kv.2) (map_to_list (posts db)))
    ≤ N.to_nat lim →
  feedBucket db f lim 0
  = populate_creator db <$>
      (hydrate <$> merge_sort date_desc
                     (filter (λ kv, f kv.2) (map_to_list (posts db)))).
Proof.
  intros Hfit. unfold feedBucket, Query_exec; simpl.
  rewrite toCount_inject. change (toCount (inject_Z (Z.of_N 0))) with 0.
  rewrite drop_0. destruct (N.to_nat lim =? 0); [done|].
  rewrite take_ge; [done|]. by rewrite merge_sort_Permutation.
Qed.

Lemma sorted_bucket db (f : Post → bool) :
  creators_resolve db →
  let docs := hydrate <$> merge_sort date_desc
                            (filter (λ kv, f kv.2) (map_to_list (posts db))) in
  docs ≡ₚ hydrate <$> filter (λ kv, f kv.2) (map_to_list (posts db)) ∧
  StronglySorted newest_first docs ∧
  Forall (λ d, f (doc d)) docs ∧
  Forall (λ d, is_Some (users db !! creator (doc d))) docs.
Proof.
  intros Hres docs. subst docs. split; [by rewrite merge_sort_Permutation|].
  split.
  { eapply StronglySorted_fmap; [|apply StronglySorted_merge_sort; apply _].
    by intros [] []. }
  rewrite merge_sort_Permutation, !Forall_fmap.
  split; apply Forall_forall; intros [k p] [Hf Hin%elem_of_map_to_list]%list_elem_of_filter;
    simpl in *; [done|]. by apply (Hres k p).
Qed.

(** C5 (amended): when nothing is skipped, every creator is a stored user
    and the free posts and the gated posts each fit the sub-limit
    floor(limit/2) + (limit mod 2) (as 3 free and 3 gated posts do for
    limit 10), the feed is all the free posts, newest first, followed by all
    the gated posts, newest first, with no re-sort, and an entry is locked
    exactly when its post has a tier. *)
Theorem getFeed_free_then_gated (db : Db) (req : Request) :
  let lim := default 25%N (query_limit req) in
  default 0%N (query_skip req) = 0%N →
  length (freePosts db) ≤ N.to_nat (lim / 2 + lim mod 2) →
  length (gatedPosts db) ≤ N.to_nat (lim / 2 + lim mod 2) →
  creators_resolve db →
  ∃ fs gs : list FeedEntry,
    getFeed db req = Res 200 (JFeed (fs ++ gs)) ∧
    post <$> fs ≡ₚ freePosts db ∧
    StronglySorted newest_first (post <$> fs) ∧
    post <$> gs ≡ₚ gatedPosts db ∧
    StronglySorted newest_first (post <$> gs) ∧
    Forall (λ e, tier (doc (post e)) = None ∧ locked e = false) fs ∧
    Forall (λ e, tier (doc (post e)) ≠ None ∧ locked e = true) gs ∧
    Forall (λ e, locked e = true ↔ tier (doc (post e)) ≠ None) (fs ++ gs).
Proof.
  intros lim Hskip Hfree Hgated Hres. unfold freePosts, gatedPosts in *.
  rewrite length_fmap in Hfree, Hgated.
  rewrite getFeed_unfold, !feedQuery_feedBucket, Hskip. fold lim.
  change (subPage 0) with 0%N. unfold subPage.
  rewrite !feedBucket_all by done.
  destruct (sorted_bucket db isFree Hres) as (HpF & HsF & HfF & HuF).
  destruct (sorted_bucket db isGated Hres) as (HpG & HsG & HfG & HuG).
  destruct (feedEntry_all db _ HuF) as (fs & Hfs & HpostF & HlF).
  destruct (feedEntry_all db _ HuG) as (gs & Hgs & HpostG & HlG).
  exists fs, gs. rewrite (mapM_app_Some _ _ _ _ _ Hfs Hgs). simpl.
  rewrite HpostF, HpostG. repeat (split; [done|]).
  rewrite <- HpostF in HfF. rewrite <- HpostG in HfG.
  rewrite Forall_fmap in HfF, HfG.
  assert (Forall (λ e, tier (doc (post e)) = None ∧ locked e = false) fs) as HF.
  { eapply Forall_impl; [apply Forall_and; split; [apply HfF|apply HlF]|].
    intros e [Hf Hl]; simpl in *. rewrite Hl. unfold isFree in Hf.
    by destruct (tier (doc (post e))). }
  assert (Forall (λ e, tier (doc (post e)) ≠ None ∧ locked e = true) gs) as HG.
  { eapply Forall_impl; [apply Forall_and; split; [apply HfG|apply HlG]|].
    intros e [Hf Hl]; simpl in *. rewrite Hl. unfold isGated in Hf.
    by destruct (tier (doc (post e))). }
  repeat (split; [done|]). apply Forall_app. split.
  - eapply Forall_impl; [apply HF|]. intros e [-> ->]. done.
  - eapply Forall_impl; [apply HG|]. intros e [? ->]. done.
Qed.

(** C5, as stated, fails: five posts fit a page of six, but four of them
    are free and the free bucket is cut at its sub-limit of three, so the
    feed is not all free posts followed by all gated posts. *)
Lemma getFeed_cuts_lopsided_store :
  length (freePosts lopsided) + length (gatedPosts lopsided) ≤ 6 ∧
  ∃ es : list FeedEntry,
    getFeed lopsided (feedRequest None (Some 6%N) None) = Res 200 (JFeed es) ∧
    ¬ ∃ fs gs : list FeedEntry,
        es = fs ++ gs ∧
        post <$> fs ≡ₚ freePosts lopsided ∧
        post <$> gs ≡ₚ gatedPosts lopsided.
Proof.
  split; [vm_compute; lia|]. eexists. split; [vm_compute; reflexivity|].
  intros (fs & gs & Hes & HF & HG).
  apply (f_equal length) in Hes. rewrite length_app in Hes.
  apply Permutation_length in HF, HG. rewrite length_fmap in HF, HG.
  rewrite HF, HG in Hes. vm_compute in Hes. discriminate.
Qed.

(** ** The single-post view *)

(** C6: for a gated post whose meal reference resolves, getPostById answers
    an anonymous caller with the post in which the meal's ingredients and
    steps are empty lists, and an authenticated caller with the post and
    its full meal; every other field of the post is the stored one. *)
Theorem getPostById_gated_meal (db : Db) (req : Request) (p : Post)
    (t mid : ObjectId) (m : Meal.t) :
  posts db !! params_id req = Some p →
  tier p = Some t →
  meal p = Some mid →
  meals db !! mid = Some m →
  let view (m' : Meal.t) : Doc PostWithMeal :=
    mkDoc (params_id req)
      (mkPost (title p) (creator p) (tier p) (description p) (media p)
              (documents p) (likedCount p) (commentCount p) (date p) (type p)
              (Some (mkDoc mid m')) (mealPlan p ≫= findDoc (mealPlans db))
              (aspectRatio p)) in
  getPostById db req
  = Res 200 (JPostWithMeal
      (view match user req with
            | None => Meal.mk [] [] (Meal.others m)
            | Some _ => m
            end)).
Proof.
  intros Hp Ht Hmeal Hm view. subst view.
  unfold getPostById, findDoc, populate_meal, on_doc, on_doc_to, populated, redact.
  rewrite Hp. simpl. rewrite Ht, Hmeal. cbn. unfold findDoc. rewrite Hm. cbn.
  by destruct (user req).
Qed.

(** C10: for a gated post without a meal, getPostById does not answer an
    anonymous caller with a post: reading the absent meal throws and the
    call ends in the error path. *)
Theorem getPostById_gated_without_meal (db : Db) (req : Request) (p : Post)
    (t : ObjectId) :
  posts db !! params_id req = Some p →
  tier p = Some t →
  meal p = None →
  user req = None →
  getPostById db req = Next TypeError.
Proof.
  intros Hp Ht Hmeal Hu.
  unfold getPostById, findDoc, populate_meal, on_doc_to, populated.
  rewrite Hp. simpl. by rewrite Ht, Hmeal, Hu.
Qed.

(** ** The theorems at the fixture *)

Lemma fixture_ledger_ok : ledger_ok fixture.
Proof. split; [apply map_Forall_empty|]. compute_done. Defined.

Lemma likedCount_counts_likes_witness :
  ledger_ok fixture ∧
  likedCount (with_likedCount 1 (mkFixturePost "f1" None 5 PostType.Normal None))
  = Z.of_nat (size (likesOf 10%N
      (exec (runLikes [DoLike (asUser 2%N bob 10%N); DoLike (asUser 1%N alice 10%N);
                       DoUnlike (asUser 2%N bob 10%N); DoLike (asUser 2%N bob 13%N)])
            fixture))).
Proof.
  split; [apply fixture_ledger_ok|].
  apply likedCount_counts_likes; [apply fixture_ledger_ok|].
  vm_compute. reflexivity.
Defined.

Lemma likePost_idempotent_witness :
  size (likesOfBy 10%N 2%N fixture) ≤ 1 ∧
  ∃ p1 : Post,
    posts (exec (likePost (asUser 2%N bob 10%N)) fixture) !! 10%N = Some p1 ∧
    posts (exec (likePost (asUser 2%N bob 10%N))
             (exec (likePost (asUser 2%N bob 10%N)) fixture)) !! 10%N = Some p1.
Proof.
  split; [vm_compute; lia|].
  destruct (likePost_idempotent (asUser 2%N bob 10%N) (mkDoc 2%N bob)
              (mkFixturePost "f1" None 5 PostType.Normal None) fixture)
    as (p1 & H1 & H2 & _).
  - reflexivity.
  - vm_compute. reflexivity.
  - apply map_Forall_empty.
  - vm_compute. lia.
  - exists p1. split; assumption.
Defined.

Lemma unlikePost_without_like_witness :
  unlikePost (asUser 2%N bob 99%N) fixture
  = (tt, fixture, [Responded (Res 404 (JErr "Post not found"))]) ∧
  unlikePost (asUser 2%N bob 10%N) fixture
  = (tt, fixture,
     [PostSaved (mkDoc 10%N (mkFixturePost "f1" None 5 PostType.Normal None));
      Responded (Res 200 (JPost
        (mkDoc 10%N (mkFixturePost "f1" None 5 PostType.Normal None))))]).
Proof.
  split.
  - apply (proj1 (unlikePost_without_like (asUser 2%N bob 99%N) fixture)).
    vm_compute. reflexivity.
  - apply (proj2 (unlikePost_without_like (asUser 2%N bob 10%N) fixture)
                 (mkDoc 2%N bob)).
    + reflexivity.
    + vm_compute. reflexivity.
    + vm_compute. reflexivity.
Defined.

Lemma createComment_reply_target_missing_witness :
  createComment (commentRequest 1%N alice 11%N "reply" (Some 100%N)) fixtureWithComment
  = (tt, fixtureWithComment, [Responded (Res 404 (JErr "Comment not found"))]) ∧
  createComment (commentRequest 1%N alice 11%N "reply" (Some 7%N)) fixtureWithComment
  = (tt, fixtureWithComment, [Responded (Res 404 (JErr "Comment not found"))]).
Proof.
  split.
  - apply (createComment_reply_target_missing _ _
             (mkFixturePost "f2" None 9 PostType.Normal None) 100%N).
    + vm_compute. reflexivity.
    + reflexivity.
    + right. exists (Comment.mk 10%N 2%N "nice" None 0 0).
      split; [vm_compute; reflexivity|]. simpl. lia.
  - apply (createComment_reply_target_missing _ _
             (mkFixturePost "f2" None 9 PostType.Normal None) 7%N).
    + vm_compute. reflexivity.
    + reflexivity.
    + left. vm_compute. reflexivity.
Defined.

Lemma fixtureWithComment_ok : comments_ok fixtureWithComment.
Proof.
  apply createComment_comments_ok. split; apply map_Forall_empty.
Defined.

Lemma replyCount_counts_replies_witness :
  comments_ok fixtureWithComment ∧
  Comment.replyCount (Comment.mk 10%N 2%N "nice" None 2 0)
  = Z.of_nat (size (repliesTo 100%N
      (exec (runComments [commentRequest 1%N alice 10%N "a" (Some 100%N);
                          commentRequest 2%N bob 10%N "b" (Some 100%N)])
            fixtureWithComment))) ∧
  ∃ (comment : Doc Comment.t) (post : Doc Post),
    trace (createComment (commentRequest 1%N alice 10%N "a" (Some 100%N)))
          fixtureWithComment
    = [CommentSaved comment; PostSaved post; Responded (Res 200 (JComment comment));
       CommentSaved (mkDoc 100%N (Comment.mk 10%N 2%N "nice" None 1 0))].
Proof.
  split; [apply fixtureWithComment_ok|].
  destruct (replyCount_counts_replies
              [commentRequest 1%N alice 10%N "a" (Some 100%N);
               commentRequest 2%N bob 10%N "b" (Some 100%N)]
              fixtureWithComment fixtureWithComment_ok) as [Hcount Horder].
  split.
  - apply Hcount. vm_compute. reflexivity.
  - apply (Horder (commentRequest 1%N alice 10%N "a" (Some 100%N)) (mkDoc 1%N alice)
                  (with_commentCount 1 (mkFixturePost "f1" None 5 PostType.Normal None))
                  100%N (Comment.mk 10%N 2%N "nice" None 0 0)).
    + reflexivity.
    + vm_compute. reflexivity.
    + reflexivity.
    + vm_compute. reflexivity.
    + reflexivity.
Defined.

Lemma getFeed_sub_limits_witness :
  ∃ es : list FeedEntry,
    getFeed fixture (feedRequest None (Some 3%N) None) = Res 200 (JFeed es) ∧
    length es ≤ 4.
Proof.
  eexists. split; [vm_compute; reflexivity|].
  apply (proj2 (proj2 (proj2
           (getFeed_sub_limits fixture (feedRequest None (Some 3%N) None)
              ltac:(reflexivity) ltac:(reflexivity))))).
  - simpl. lia.
  - vm_compute. reflexivity.
Defined.

Lemma fixture_creators_resolve : creators_resolve fixture.
Proof. compute_done. Defined.

Lemma getFeed_free_then_gated_witness :
  creators_resolve fixture ∧
  ∃ fs gs : list FeedEntry,
    getFeed fixture (feedRequest None (Some 10%N) None) = Res 200 (JFeed (fs ++ gs)) ∧
    post <$> fs ≡ₚ freePosts fixture ∧
    post <$> gs ≡ₚ gatedPosts fixture ∧
    length fs = 3 ∧ length gs = 3.
Proof.
  split; [apply fixture_creators_resolve|].
  destruct (getFeed_free_then_gated fixture (feedRequest None (Some 10%N) None))
    as (fs & gs & Hfeed & HpF & _ & HpG & _).
  - reflexivity.
  - vm_compute. lia.
  - vm_compute. lia.
  - apply fixture_creators_resolve.
  - exists fs, gs. repeat (split; [assumption|]). split.
    + rewrite <- (length_fmap post), HpF. reflexivity.
    + rewrite <- (length_fmap post), HpG. reflexivity.
Defined.

Lemma getPostById_gated_meal_witness :
  getPostById fixture (anonymous 13%N)
  = Res 200 (JPostWithMeal (mkDoc 13%N
      (mkPost "g1" 1%N (Some 30%N) "text" [] [] 0 0 8 PostType.Meal
              (Some (mkDoc 20%N (Meal.mk [] [] [("name", "Pasta")]))) None
              (Some square)))) ∧
  getPostById fixture (asUser 2%N bob 13%N)
  = Res 200 (JPostWithMeal (mkDoc 13%N
      (mkPost "g1" 1%N (Some 30%N) "text" [] [] 0 0 8 PostType.Meal
              (Some (mkDoc 20%N pasta)) None (Some square)))).
Proof.
  split.
  - apply (getPostById_gated_meal fixture (anonymous 13%N)
             (mkFixturePost "g1" (Some 30%N) 8 PostType.Meal (Some 20%N))
             30%N 20%N pasta); reflexivity.
  - apply (getPostById_gated_meal fixture (asUser 2%N bob 13%N)
             (mkFixturePost "g1" (Some 30%N) 8 PostType.Meal (Some 20%N))
             30%N 20%N pasta); reflexivity.
Defined.

Lemma getPostById_gated_without_meal_witness :
  getPostById fixture (anonymous 14%N) = Next TypeError.
Proof.
  apply (getPostById_gated_without_meal fixture (anonymous 14%N)
           (mkFixturePost "g2" (Some 30%N) 6 PostType.Normal None) 30%N);
    reflexivity.
Defined.

(** * Further properties *)

(** ** The middleware and the guarded routes *)

Lemma likePost_answers_once req u db :
  user req = Some u → ∃ st p, responses (trace (likePost req) db) = [Res st p].
Proof.
  intros Hu. run_handler. rewrite Hu.
  destruct (posts db !! params_id req); simpl; [|by eauto].
  destruct (List.find _ _); simpl; eauto.
Qed.

Lemma unlikePost_answers_once req u db :
  user req = Some u → ∃ st p, responses (trace (unlikePost req) db) = [Res st p].
Proof.
  intros Hu. run_handler. rewrite Hu.
  destruct (posts db !! params_id req); simpl; [|by eauto].
  destruct (List.find _ _); simpl; eauto.
Qed.

Lemma createComment_answers_once req u db :
  user req = Some u → ∃ st p, responses (trace (createComment req) db) = [Res st p].
Proof.
  intros Hu. run_handler. rewrite Hu. unfold reply_target_missing.
  destruct (posts db !! params_id req); simpl; [|by eauto].
  destruct (query_repliedTo req) as [r|]; simpl; [|by eauto].
  destruct (comments db !! r) as [c|]; simpl; [|by eauto].
  destruct (Comment.postId c =? params_id req)%N; simpl; eauto.
Qed.

(** X1: each of the routes for like, unlike and comment turns the request
    away with 401 exactly when the request carries no user; otherwise its
    handler runs: when the id of the path is no ObjectId the CastError of
    findById goes to next, and when it is one the handler ends with exactly
    one response or error, which is never the TypeError of reading
    [req.user._id] or the reply target. *)
Theorem guarded_writes_answer_once (castId : string → option ObjectId)
    (id : string) (req : Request) (db : Db) :
  Forall (λ r : Routed (Served (M unit)),
            match r with
            | Denied s m => user req = None ∧ s = 401 ∧ m = "Unauthorized"
            | Handled CastFailed => is_Some (user req) ∧ castId id = None
            | Handled (Ran c) =>
              is_Some (user req) ∧ is_Some (castId id) ∧
              ∃ r, responses (trace c db) = [r] ∧ r ≠ Next TypeError
            end)
         [route_likePost castId id req; route_unlikePost castId id req;
          route_createComment castId id req].
Proof.
  unfold route_likePost, route_unlikePost, route_createComment, route, chain,
    requireToken, withId.
  destruct (user req) as [u|] eqn:Hu; simpl; [|repeat constructor; done].
  destruct (castId id) as [i|]; repeat constructor; eauto.
  - destruct (likePost_answers_once (with_params_id i req) u db Hu) as (st & p & ->).
    by eexists.
  - destruct (unlikePost_answers_once (with_params_id i req) u db Hu) as (st & p & ->).
    by eexists.
  - destruct (createComment_answers_once (with_params_id i req) u db Hu)
      as (st & p & ->).
    by eexists.
Qed.

(** X2: for a request with a user, requireRoles and exceptRoles on the same
    list of roles are complementary, one lets through exactly what the
    other turns away; a request without a user is turned away by both. *)
Theorem roles_complementary (roles : list string) (req : Request) :
  match user req with
  | None =>
    requireRoles roles req = Deny 401 "Unauthorized" ∧
    exceptRoles roles req = Deny 401 "Unauthorized"
  | Some u =>
    ((User.role (doc u) ∈ roles) ∧ requireRoles roles req = Pass ∧
     exceptRoles roles req = Deny 401 "Unauthorized") ∨
    ((User.role (doc u) ∉ roles) ∧
     requireRoles roles req = Deny 401 "Unauthorized" ∧
     exceptRoles roles req = Pass)
  end.
Proof.
  unfold requireRoles, exceptRoles, includes. destruct (user req) as [u|]; [|done].
  case_bool_decide; simpl; [left|right]; done.
Qed.

(** X3: the route that creates posts turns away every request without a
    user and every Consumer; a request it lets through is answered, so the
    assignment of [req.user._id] outside the handler's try block never
    throws behind this route, and a successful answer is the stored post. *)
Theorem route_createPost_guarded (probe : string → option (N * N)) (b : PostBody)
    (req : Request) (db : Db) :
  match route_createPost probe b req with
  | Denied s m =>
    s = 401 ∧ m = "Unauthorized" ∧
    (user req = None ∨ ∃ u, user req = Some u ∧ User.role (doc u) = "Consumer")
  | Handled c =>
    (∃ u, user req = Some u ∧ User.role (doc u) ≠ "Consumer") ∧
    (∀ e, (c db).1.1 ≠ Unanswered e) ∧
    (∀ post, (c db).1.1 = Json post →
             posts (exec c db) !! _id post = Some (doc post))
  end.
Proof.
  unfold route_createPost, route, chain, requireToken, exceptRoles, includes.
  destruct (user req) as [u|] eqn:Hu; simpl; [|by auto].
  case_bool_decide as Hrole; simpl.
  - apply list_elem_of_singleton in Hrole. eauto 10.
  - assert (User.role (doc u) ≠ "Consumer") by set_solver.
    split; [by eauto|]. unfold createPost, exec. rewrite Hu.
    destruct (newPost b (_id u) (now req) ≫= _) as [p|]; simpl.
    + split; [done|]. intros post [= <-]. simpl. apply lookup_insert_eq.
    + done.
Qed.

(** ** getLikedPosts *)

Lemma getLikedPosts_elem db req u pid :
  user req = Some u →
  ∃ ids, getLikedPosts db req = Json ids ∧
         (pid ∈ ids ↔ likesOfBy pid (_id u) db ≠ ∅).
Proof.
  intros Hu. unfold getLikedPosts, Like_find. rewrite Hu. eexists. split; [done|].
  rewrite <- list_fmap_compose, list_elem_of_fmap. split.
  - intros ([k l] & -> & [Hby Hin%elem_of_map_to_list]%list_elem_of_filter).
    simpl in *. rewrite <- Hby. by apply likesOfBy_nonempty in Hin.
  - intros Hne. apply map_choose in Hne as (k & l & Hl).
    apply map_lookup_filter_Some in Hl as (Hl & Hp & Hby); simpl in *.
    exists (k, l). split; [done|]. apply list_elem_of_filter. split; [done|].
    by apply elem_of_map_to_list.
Qed.

(** X4: once a user has liked an existing post, getLikedPosts for that user
    lists the post. *)
Theorem liked_post_is_listed (req : Request) (u : Doc User.t) (p : Post) (db : Db) :
  user req = Some u →
  posts db !! params_id req = Some p →
  likes_fresh db →
  ∃ ids, getLikedPosts (exec (likePost req) db) req = Json ids ∧
         params_id req ∈ ids.
Proof.
  intros Hu Hp Hfresh.
  destruct (getLikedPosts_elem (exec (likePost req) db) req u (params_id req) Hu)
    as (ids & Hids & Hin).
  exists ids. split; [done|]. apply Hin. unfold exec.
  destruct (decide (likesOfBy (params_id req) (_id u) db = ∅)) as [Hnone|Hsome].
  - rewrite (likePost_first req u p db Hu Hp Hnone). simpl.
    apply (likesOfBy_nonempty _ (nextId db) (Like.mk (params_id req) (_id u))).
    simpl. apply lookup_insert_eq.
  - by rewrite (likePost_again req u p db Hu Hp Hsome).
Qed.

(** X5: once a user with at most one Like on an existing post has unliked
    it, getLikedPosts for that user no longer lists the post. *)
Theorem unliked_post_is_not_listed (req : Request) (u : Doc User.t) (p : Post)
    (db : Db) :
  user req = Some u →
  posts db !! params_id req = Some p →
  size (likesOfBy (params_id req) (_id u) db) ≤ 1 →
  ∃ ids, getLikedPosts (exec (unlikePost req) db) req = Json ids ∧
         params_id req ∉ ids.
Proof.
  intros Hu Hp Hone.
  destruct (getLikedPosts_elem (exec (unlikePost req) db) req u (params_id req) Hu)
    as (ids & Hids & Hin).
  exists ids. split; [done|]. rewrite Hin. intros Hne. apply Hne. clear Hin Hne Hids.
  run_handler. rewrite Hp, Hu. simpl.
  destruct (List.find _ _) as [l|] eqn:Hl; simpl.
  - apply Like_findOne_Some in Hl as (Hk & Hpid & Hby).
    unfold likesOfBy in *; simpl.
    apply (map_size_empty_iff (filter _ (delete l.1 (likes db)))).
    pose proof (size_filter_delete
      (λ kv, Like.postId kv.2 = params_id req ∧ Like.likedBy kv.2 = _id u)
      _ _ _ Hk) as Hsz.
    rewrite decide_True in Hsz by done. lia.
  - by apply Like_findOne_None.
Qed.

(** X6: a like by a user without a Like on the post, followed by an unlike
    by the same user, puts the Post and the Like collections back as they
    were. *)
Theorem like_then_unlike (req : Request) (u : Doc User.t) (p : Post) (db : Db) :
  user req = Some u →
  posts db !! params_id req = Some p →
  likes_fresh db →
  likesOfBy (params_id req) (_id u) db = ∅ →
  posts (exec (unlikePost req) (exec (likePost req) db)) = posts db ∧
  likes (exec (unlikePost req) (exec (likePost req) db)) = likes db.
Proof.
  intros Hu Hp Hfresh Hnone.
  assert (likes db !! nextId db = None) as Hnew.
  { destruct (likes db !! nextId db) eqn:E; [|done].
    apply Hfresh in E. simpl in E. lia. }
  unfold exec at 2 4. rewrite (likePost_first req u p db Hu Hp Hnone). simpl.
  set (db1 := set_posts _ _).
  assert (posts db1 = <[params_id req := with_likedCount (likedCount p + 1) p]>
                        (posts db)) as Hposts by done.
  assert (likes db1 = <[nextId db := Like.mk (params_id req) (_id u)]> (likes db))
    as Hlikes by done.
  clearbody db1. run_handler. rewrite Hposts, lookup_insert_eq, Hu. simpl.
  destruct (List.find _ _) as [[k l]|] eqn:Hl; simpl.
  - apply Like_findOne_Some in Hl as (Hk & Hpid & Hby). simpl in *.
    rewrite Hlikes in Hk |- *. rewrite Hposts.
    apply lookup_insert_Some in Hk as [[<- <-]|[Hne Hk]].
    + split.
      * rewrite insert_insert_eq.
        replace (with_likedCount _ _) with p; [by apply insert_id|].
        unfold with_likedCount; simpl. destruct p; simpl. f_equal. lia.
      * rewrite delete_insert_eq. by apply delete_id.
    + apply likesOfBy_nonempty in Hk. by rewrite Hpid, Hby in Hk.
  - apply Like_findOne_None in Hl. exfalso.
    assert (likesOfBy (params_id req) (_id u) db1 ≠ ∅) as Hne; [|done].
    apply (likesOfBy_nonempty db1 (nextId db) (Like.mk (params_id req) (_id u))).
    rewrite Hlikes. apply lookup_insert_eq.
Qed.

(** ** What each writing handler does to the store *)

Lemma likePost_exec_cases req db :
  exec (likePost req) db = db ∨
  ∃ u p, user req = Some u ∧ posts db !! params_id req = Some p ∧
         likesOfBy (params_id req) (_id u) db = ∅ ∧
         exec (likePost req) db
         = set_posts <[params_id req := with_likedCount (likedCount p + 1) p]>
             (bump_nextId
                (set_likes <[nextId db := Like.mk (params_id req) (_id u)]> db)).
Proof.
  destruct (posts db !! params_id req) as [p|] eqn:Hp;
    [|left; run_handler; by rewrite Hp].
  destruct (user req) as [u|] eqn:Hu; [|left; run_handler; by rewrite Hp, Hu].
  destruct (decide (likesOfBy (params_id req) (_id u) db = ∅)) as [Hnone|Hsome].
  - right. exists u, p. repeat (split; [done|]). unfold exec.
    by rewrite (likePost_first req u p db Hu Hp Hnone).
  - left. unfold exec. by rewrite (likePost_again req u p db Hu Hp Hsome).
Qed.

Lemma unlikePost_exec_cases req db :
  exec (unlikePost req) db = db ∨
  ∃ u p k l, user req = Some u ∧ posts db !! params_id req = Some p ∧
             likes db !! k = Some l ∧ Like.postId l = params_id req ∧
             Like.likedBy l = _id u ∧
             exec (unlikePost req) db
             = set_posts <[params_id req := with_likedCount (likedCount p - 1) p]>
                 (set_likes (delete k) db).
Proof.
  destruct (posts db !! params_id req) as [p|] eqn:Hp;
    [|left; run_handler; by rewrite Hp].
  destruct (user req) as [u|] eqn:Hu; [|left; run_handler; by rewrite Hp, Hu].
  destruct (List.find (like_matches (params_id req) (_id u))
                      (map_to_list (likes db))) as [[k l]|] eqn:Hl.
  - right. exists u, p, k, l. apply Like_findOne_Some in Hl as Hl'.
    destruct Hl' as (Hk & Hpid & Hby). repeat (split; [done|]).
    run_handler. rewrite Hp, Hu. simpl. by rewrite Hl.
  - left. run_handler. rewrite Hp, Hu. simpl. rewrite Hl. simpl.
    by rewrite save_unchanged_post.
Qed.

Lemma createPost_exec_cases probe b req db :
  exec (createPost probe b req) db = db ∨
  ∃ u p, user req = Some u ∧ creator p = _id u ∧ likedCount p = 0%Z ∧
         commentCount p = 0%Z ∧ date p = now req ∧
         createPost probe b req db
         = (Json (mkDoc (nextId db) p),
            bump_nextId (set_posts <[nextId db := p]> db),
            [PostSaved (mkDoc (nextId db) p)]).
Proof.
  unfold exec, createPost. destruct (user req) as [u|] eqn:Hu; [|by left].
  destruct (newPost b (_id u) (now req)) as [p0|] eqn:Hnew; [|by left].
  simpl. destruct (preSave probe _ p0) as [p|] eqn:Hpre; [|by left].
  right. exists u, p. split; [done|].
  assert (creator p0 = _id u ∧ likedCount p0 = 0%Z ∧ commentCount p0 = 0%Z ∧
          date p0 = now req) as (H1 & H2 & H3 & H4).
  { unfold newPost in Hnew. destruct (required (b_title b)); [|done].
    destruct (required (b_description b)); [|done]. by injection Hnew as <-. }
  assert (creator p = creator p0 ∧ likedCount p = likedCount p0 ∧
          commentCount p = commentCount p0 ∧ date p = date p0) as (E1 & E2 & E3 & E4).
  { unfold preSave in Hpre. destruct (negb _); [by injection Hpre as <-|].
    destruct (media p0) as [|[|a s] ?]; try (by injection Hpre as <-).
    destruct (probe _) as [[w h]|]; [|done]. by injection Hpre as <-. }
  rewrite E1, E2, E3, E4. done.
Qed.

Lemma updatePost_exec_cases b req db :
  exec (updatePost b req) db = db ∨
  ∃ u p, user req = Some u ∧ posts db !! params_id req = Some p ∧
         creator p = _id u ∧
         updatePost b req db
         = (Json (mkDoc (params_id req) (applyUpdate b p)),
            set_posts <[params_id req := applyUpdate b p]> db, []).
Proof.
  unfold exec, updatePost, Post_findOneAndUpdate.
  destruct (user req) as [u|] eqn:Hu; [|by left].
  destruct (validUpdate b); simpl; [|by left].
  unfold mbind, M_bind, mret, M_ret.
  destruct (posts db !! params_id req) as [p|] eqn:Hp; [|by left].
  destruct (N.eqb_spec (creator p) (_id u)) as [Hc|Hc]; [|by left].
  right. by exists u, p.
Qed.

(** ** The invariants of the whole store *)

Lemma fresh_mono {A} (f : ObjectId → A → N) (m : gmap ObjectId A) (n n' : N) :
  (n ≤ n')%N →
  map_Forall (λ k x, (f k x < n)%N) m → map_Forall (λ k x, (f k x < n')%N) m.
Proof.
  intros Hn H. eapply map_Forall_impl; [apply H|]. simpl. intros; lia.
Qed.

Lemma comments_ok_frame db db' :
  comments db' = comments db → (nextId db ≤ nextId db')%N →
  comments_ok db → comments_ok db'.
Proof.
  intros Hc Hn [Hfresh Hcons]. split.
  - unfold comments_fresh. rewrite Hc. eapply map_Forall_impl; [apply Hfresh|].
    simpl. intros k c [H1 H2]. split; [lia|]. intros r Hr. apply H2 in Hr. lia.
  - unfold replyCount_consistent, repliesTo. rewrite Hc. apply Hcons.
Qed.

Lemma ledger_ok_frame db db' :
  likes db' = likes db → (nextId db ≤ nextId db')%N → likes_fresh db →
  map_Forall (λ id p, likedCount p = Z.of_nat (size (likesOf id db))) (posts db') →
  ledger_ok db'.
Proof.
  intros Hl Hn Hfresh Hposts. split.
  - unfold likes_fresh. rewrite Hl. by apply (fresh_mono (λ k _, k) _ (nextId db)).
  - unfold likedCount_consistent, likesOf in *. by rewrite Hl.
Qed.

Lemma commentCount_frame db db' :
  comments db' = comments db →
  map_Forall (λ id p, commentCount p = Z.of_nat (size (commentsOn id db)))
             (posts db') →
  commentCount_consistent db'.
Proof.
  intros Hc Hposts. unfold commentCount_consistent, commentsOn in *. by rewrite Hc.
Qed.

Lemma posts_fresh_key db id p :
  posts_fresh db → posts db !! id = Some p → (id < nextId db)%N.
Proof. intros (H & _ & _) Hp. by apply H in Hp. Qed.

Lemma posts_fresh_new db :
  posts_fresh db →
  posts db !! nextId db = None ∧ size (likesOf (nextId db) db) = 0 ∧
  size (commentsOn (nextId db) db) = 0.
Proof.
  intros (Hp & Hl & Hc). split; [|split].
  - destruct (posts db !! nextId db) eqn:E; [|done]. apply Hp in E. simpl in E. lia.
  - apply (map_size_empty_iff (likesOf _ db)), map_empty. intros k.
    apply map_lookup_filter_None. right. intros l Hk Hpid; simpl in Hpid.
    apply Hl in Hk. simpl in Hk. lia.
  - apply (map_size_empty_iff (commentsOn _ db)), map_empty. intros k.
    apply map_lookup_filter_None. right. intros c Hk Hpid; simpl in Hpid.
    apply Hc in Hk. simpl in Hk. lia.
Qed.

Lemma likePost_store_ok req db : store_ok db → store_ok (exec (likePost req) db).
Proof.
  intros (Hledger & Hcomments & Hcc & Huniq & Hfresh).
  pose proof (likePost_ledger_ok req db Hledger) as Hledger'.
  destruct (likePost_exec_cases req db) as [->|(u & p & Hu & Hp & Hnone & Hexec)];
    [done|].
  rewrite Hexec in *. clear Hexec. split; [done|].
  pose proof (posts_fresh_key db _ _ Hfresh Hp) as Hid.
  destruct Hledger as [Hlf _].
  assert (likes db !! nextId db = None) as Hnew.
  { destruct (likes db !! nextId db) eqn:E; [|done]. apply Hlf in E. simpl in E. lia. }
  split; [|split; [|split]].
  - apply (comments_ok_frame db); simpl; [done|lia|done].
  - apply (commentCount_frame db); simpl; [done|].
    apply map_Forall_insert_2; [|done]. simpl. by apply Hcc.
  - intros pid uid. unfold likesOfBy; simpl.
    rewrite size_filter_insert_fresh by done. simpl. case_decide as Heq.
    + destruct Heq as [<- <-]. unfold likesOfBy in Hnone.
      by rewrite Hnone, map_size_empty.
    + apply Huniq.
  - destruct Hfresh as (H1 & H2 & H3). split; [|split]; simpl.
    + apply map_Forall_insert_2; [lia|].
      by apply (fresh_mono (λ k _, k) _ (nextId db)); [lia|].
    + apply map_Forall_insert_2; [simpl; lia|].
      by apply (fresh_mono (λ _ l, Like.postId l) _ (nextId db)); [lia|].
    + by apply (fresh_mono (λ _ c, Comment.postId c) _ (nextId db)); [lia|].
Qed.

Lemma unlikePost_store_ok req db : store_ok db → store_ok (exec (unlikePost req) db).
Proof.
  intros (Hledger & Hcomments & Hcc & Huniq & Hfresh).
  pose proof (unlikePost_ledger_ok req db Hledger) as Hledger'.
  destruct (unlikePost_exec_cases req db)
    as [->|(u & p & k & l & Hu & Hp & Hk & Hpid & Hby & Hexec)]; [done|].
  rewrite Hexec in *. clear Hexec. split; [done|].
  pose proof (posts_fresh_key db _ _ Hfresh Hp) as Hid.
  split; [|split; [|split]].
  - apply (comments_ok_frame db); simpl; [done|lia|done].
  - apply (commentCount_frame db); simpl; [done|].
    apply map_Forall_insert_2; [|done]. simpl. by apply Hcc.
  - intros pid uid. unfold likesOfBy; simpl.
    pose proof (size_filter_delete
      (λ kv, Like.postId kv.2 = pid ∧ Like.likedBy kv.2 = uid) _ _ _ Hk) as Hsz.
    specialize (Huniq pid uid). unfold likesOfBy in Huniq.
    case_decide; lia.
  - destruct Hfresh as (H1 & H2 & H3). split; [|split]; simpl.
    + by apply map_Forall_insert_2.
    + by apply map_Forall_delete.
    + done.
Qed.

Lemma createComment_store_ok req db :
  store_ok db → store_ok (exec (createComment req) db).
Proof.
  intros Hok. pose proof Hok as (Hledger & Hcomments & Hcc & Huniq & Hfresh).
  pose proof (createComment_comments_ok req db Hcomments) as Hcomments'.
  destruct Hcomments as [Hcf _].
  destruct (comments_fresh_new db (nextId db) Hcf) as [Hnew _]; [lia|].
  destruct Hledger as [Hlf Hlc]. destruct Hfresh as (H1 & H2 & H3).
  destruct (createComment_cases req db)
    as [->|[(u & p & Hu & Hp & Hr)|(u & p & r & c & Hu & Hp & Hr & Hc & Hpid)]];
    [done| |].
  - revert Hcomments'. unfold exec.
    rewrite (createComment_top req u p db Hu Hp Hr). simpl. intros Hcomments'.
    pose proof (H1 _ _ Hp) as Hid; simpl in Hid.
    split; [|split; [done|split; [|split; [done|]]]].
    + apply (ledger_ok_frame db); simpl; [done|lia|done|].
      apply map_Forall_insert_2; [|done]. simpl. by apply Hlc.
    + unfold commentCount_consistent, commentsOn; simpl. intros id q.
      rewrite size_filter_insert_fresh by done. simpl.
      destruct (decide (params_id req = id)) as [<-|Hne].
      * rewrite lookup_insert_eq. intros [= <-]. simpl.
        rewrite (Hcc _ _ Hp). unfold commentsOn. lia.
      * rewrite lookup_insert_ne by done. apply Hcc.
    + split; [|split]; simpl.
      * apply map_Forall_insert_2; [lia|].
        by apply (fresh_mono (λ k _, k) _ (nextId db)); [lia|].
      * by apply (fresh_mono (λ _ l, Like.postId l) _ (nextId db)); [lia|].
      * apply map_Forall_insert_2; [simpl; lia|].
        by apply (fresh_mono (λ _ c, Comment.postId c) _ (nextId db)); [lia|].
  - revert Hcomments'. unfold exec.
    rewrite (createComment_reply req u p r c db Hu Hp Hr Hc Hpid). simpl.
    intros Hcomments'.
    pose proof (H1 _ _ Hp) as Hid; simpl in Hid.
    assert (r ≠ nextId db) as Hrn.
    { pose proof (Hcf _ _ Hc) as [Hlt _]. simpl in Hlt. lia. }
    assert (<[nextId db := Comment.mk (params_id req) (_id u) (body req)
                                      (Some r) 0 (now req)]> (comments db) !! r
            = Some c) as Hc' by (by rewrite lookup_insert_ne).
    split; [|split; [done|split; [|split; [done|]]]].
    + apply (ledger_ok_frame db); simpl; [done|lia|done|].
      apply map_Forall_insert_2; [|done]. simpl. by apply Hlc.
    + unfold commentCount_consistent, commentsOn; simpl. intros id q.
      rewrite (size_filter_insert_same _ _ r c) by done.
      rewrite size_filter_insert_fresh by done. simpl.
      destruct (decide (params_id req = id)) as [<-|Hne].
      * rewrite lookup_insert_eq. intros [= <-]. simpl.
        rewrite (Hcc _ _ Hp). unfold commentsOn. lia.
      * rewrite lookup_insert_ne by done. apply Hcc.
    + split; [|split]; simpl.
      * apply map_Forall_insert_2; [lia|].
        by apply (fresh_mono (λ k _, k) _ (nextId db)); [lia|].
      * by apply (fresh_mono (λ _ l, Like.postId l) _ (nextId db)); [lia|].
      * apply map_Forall_insert_2; [simpl; rewrite Hpid; lia|].
        apply map_Forall_insert_2; [simpl; lia|].
        by apply (fresh_mono (λ _ c, Comment.postId c) _ (nextId db)); [lia|].
Qed.

Lemma createPost_store_ok probe b req db :
  store_ok db → store_ok (exec (createPost probe b req) db).
Proof.
  intros (Hledger & Hcomments & Hcc & Huniq & Hfresh).
  destruct (createPost_exec_cases probe b req db)
    as [->|(u & p & Hu & Hcr & Hlc & Hcm & _ & Hexec)]; [done|].
  unfold exec. rewrite Hexec. simpl.
  destruct (posts_fresh_new db Hfresh) as (Hnew & Hl0 & Hc0).
  destruct Hledger as [Hlf Hcons]. destruct Hfresh as (H1 & H2 & H3).
  split; [|split; [|split; [|split; [done|]]]].
  - apply (ledger_ok_frame db); simpl; [done|lia|done|].
    apply map_Forall_insert_2; [|done]. by rewrite Hlc, Hl0.
  - apply (comments_ok_frame db); simpl; [done|lia|done].
  - apply (commentCount_frame db); simpl; [done|].
    apply map_Forall_insert_2; [|done]. by rewrite Hcm, Hc0.
  - split; [|split]; simpl.
    + apply map_Forall_insert_2; [lia|].
      by apply (fresh_mono (λ k _, k) _ (nextId db)); [lia|].
    + by apply (fresh_mono (λ _ l, Like.postId l) _ (nextId db)); [lia|].
    + by apply (fresh_mono (λ _ c, Comment.postId c) _ (nextId db)); [lia|].
Qed.

Lemma updatePost_store_ok b req db :
  store_ok db → store_ok (exec (updatePost b req) db).
Proof.
  intros (Hledger & Hcomments & Hcc & Huniq & Hfresh).
  destruct (updatePost_exec_cases b req db) as [->|(u & p & Hu & Hp & Hcr & Hexec)];
    [done|].
  unfold exec. rewrite Hexec. simpl.
  destruct Hledger as [Hlf Hcons]. destruct Hfresh as (H1 & H2 & H3).
  pose proof (H1 _ _ Hp) as Hid; simpl in Hid.
  split; [|split; [|split; [|split; [done|]]]].
  - apply (ledger_ok_frame db); simpl; [done|lia|done|].
    apply map_Forall_insert_2; [|done]. simpl. by apply Hcons.
  - apply (comments_ok_frame db); simpl; [done|lia|done].
  - apply (commentCount_frame db); simpl; [done|].
    apply map_Forall_insert_2; [|done]. simpl. by apply Hcc.
  - split; [|split]; simpl; [|done|done]. by apply map_Forall_insert_2.
Qed.

Lemma performAll_store_ok acts db : store_ok db → store_ok (performAll acts db).
Proof.
  revert db. induction acts as [|a acts IH]; intros db Hok; [done|].
  simpl. apply IH.
  destruct a; simpl;
    auto using likePost_store_ok, unlikePost_store_ok, createComment_store_ok.
Qed.

(** X7: from a consistent store, any sequence of likes, unlikes and
    comments in any order, each run to completion before the next, leaves
    every post's likedCount equal to the number of its Like records and
    every comment's replyCount equal to the number of its replies. *)
Theorem counters_survive_all_requests (acts : list Action) (db : Db) :
  store_ok db →
  map_Forall (λ id p, likedCount p = Z.of_nat (size (likesOf id (performAll acts db))))
             (posts (performAll acts db)) ∧
  map_Forall (λ id c, Comment.replyCount c
                      = Z.of_nat (size (repliesTo id (performAll acts db))))
             (comments (performAll acts db)).
Proof.
  intros Hok. destruct (performAll_store_ok acts db Hok) as ([_ H1] & [_ H2] & _).
  done.
Qed.

(** X8: under the same sequences every post's commentCount equals the
    number of all Comment records of the post, replies included:
    createComment increments it for a reply as for a top-level comment. *)
Theorem commentCount_counts_all_comments (acts : list Action) (db : Db) :
  store_ok db →
  map_Forall (λ id p, commentCount p
                      = Z.of_nat (size (commentsOn id (performAll acts db))))
             (posts (performAll acts db)).
Proof.
  intros Hok. by destruct (performAll_store_ok acts db Hok) as (_ & _ & H & _).
Qed.

(** X9: under the same sequences there is never more than one Like record
    for a post and a user: likePost's look-up before it inserts keeps the
    pairs unique. *)
Theorem likes_stay_unique (acts : list Action) (db : Db) (pid uid : ObjectId) :
  store_ok db → size (likesOfBy pid uid (performAll acts db)) ≤ 1.
Proof.
  intros Hok. destruct (performAll_store_ok acts db Hok) as (_ & _ & _ & H & _).
  apply H.
Qed.

(** ** getComments and getReplies *)

Lemma size_filter_map_to_list {A} (P : ObjectId * A → Prop) `{!∀ x, Decision (P x)}
    (m : gmap ObjectId A) :
  size (filter P m) = length (filter P (map_to_list m)).
Proof.
  induction m as [|k x m Hk IH] using map_ind.
  - by rewrite map_filter_empty, map_to_list_empty.
  - rewrite size_filter_insert_fresh by done.
    rewrite map_to_list_insert by done. rewrite filter_cons.
    case_decide; simpl; by rewrite IH.
Qed.

Lemma commentView_populated db d v :
  commentView (populate_userId db d) = Some v → CommentView.comment v = d.
Proof.
  unfold commentView, populate_userId, findDoc; simpl.
  destruct (users db !! Comment.userId (doc d)) as [u|]; simpl; [|done].
  intros [= <-]; simpl. by destruct d as [i []].
Qed.

Lemma commentViews_inv db (l : list (Doc Comment.t)) vs :
  mapM commentView (populate_userId db <$> l) = Some vs →
  CommentView.comment <$> vs = l.
Proof.
  rewrite mapM_Some, Forall2_fmap_l. induction 1 as [|d v l vs Hv _ IH]; [done|].
  rewrite fmap_cons, IH. f_equal. by eapply commentView_populated.
Qed.

Lemma commentViews_all db (l : list (Doc Comment.t)) :
  Forall (λ d, is_Some (users db !! Comment.userId (doc d))) l →
  is_Some (mapM commentView (populate_userId db <$> l)).
Proof.
  intros Hl. apply mapM_is_Some, Forall_fmap. eapply Forall_impl; [apply Hl|].
  intros d [u Hu]. unfold commentView, populate_userId, findDoc; simpl.
  by rewrite Hu.
Qed.

Lemma Comment_find_Forall db (f : Comment.t → bool) lim skp :
  Forall (λ d, comments db !! _id d = Some (doc d) ∧ f (doc d))
         (Comment_find db f lim skp).
Proof.
  unfold Comment_find. apply Forall_fmap.
  assert (Forall (λ kv : ObjectId * Comment.t,
                    comments db !! kv.1 = Some kv.2 ∧ f kv.2)
                 (filter (λ kv, f kv.2) (map_to_list (comments db)))) as Hall.
  { apply Forall_forall.
    intros [k c] [Hf Hin%elem_of_map_to_list]%list_elem_of_filter. done. }
  destruct (N.to_nat lim =? 0); [|apply Forall_take]; by apply Forall_drop.
Qed.

Lemma length_Comment_find db (f : Comment.t → bool) lim skp :
  (1 ≤ lim)%N → length (Comment_find db f lim skp) ≤ N.to_nat lim.
Proof.
  intros Hlim. unfold Comment_find. rewrite length_fmap.
  destruct (Nat.eqb_spec (N.to_nat lim) 0) as [|_]; [lia|].
  rewrite length_take. lia.
Qed.

Lemma commentsReply_Json o vs : commentsReply o = Json vs → o = Some vs.
Proof. destruct o; simpl; congruence. Qed.

(** X10: every comment getComments returns is a stored top-level comment of
    the requested post, and for a limit of at least 1 there are at most
    limit of them. *)
Theorem getComments_top_level (db : Db) (req : Request) (vs : list CommentView.t) :
  getComments db req = Json vs →
  Forall (λ v, comments db !! _id (CommentView.comment v)
               = Some (doc (CommentView.comment v)) ∧
               Comment.postId (doc (CommentView.comment v)) = params_id req ∧
               Comment.repliedTo (doc (CommentView.comment v)) = None) vs ∧
  ((1 ≤ default 25 (query_limit req))%N →
   length vs ≤ N.to_nat (default 25%N (query_limit req))).
Proof.
  intros Hvs%commentsReply_Json. pose proof (commentViews_inv _ _ _ Hvs) as Hl.
  split.
  - pose proof (Comment_find_Forall db (isTopLevelOf (params_id req))
                  (default 25%N (query_limit req)) (default 0%N (query_skip req)))
      as Hall.
    rewrite <- Hl, Forall_fmap in Hall. eapply Forall_impl; [apply Hall|].
    simpl. intros v [Hst Htop]. split; [done|]. unfold isTopLevelOf in Htop.
    apply andb_prop_elim in Htop as [H1 H2]. apply Is_true_eq_true, N.eqb_eq in H1.
    split; [done|]. by destruct (Comment.repliedTo _).
  - intros Hlim. rewrite <- (length_fmap CommentView.comment), Hl.
    by apply length_Comment_find.
Qed.

(** X11: every comment getReplies returns is a stored comment whose
    repliedTo is the requested comment id, and the post id of the path
    plays no part: the answer is the same under any post id. *)
Theorem getReplies_of_comment (db : Db) (commId : ObjectId) (req : Request)
    (vs : list CommentView.t) :
  getReplies db commId req = Json vs →
  Forall (λ v, comments db !! _id (CommentView.comment v)
               = Some (doc (CommentView.comment v)) ∧
               Comment.repliedTo (doc (CommentView.comment v)) = Some commId) vs ∧
  ∀ id : ObjectId, getReplies db commId (with_params_id id req) = Json vs.
Proof.
  intros Hreply. split; [|done]. apply commentsReply_Json in Hreply as Hvs.
  pose proof (commentViews_inv _ _ _ Hvs) as Hl.
  pose proof (Comment_find_Forall db (isReplyTo commId)
                (default 25%N (query_limit req)) (default 0%N (query_skip req)))
    as Hall.
  rewrite <- Hl, Forall_fmap in Hall. eapply Forall_impl; [apply Hall|].
  simpl. intros v [Hst Hre]. split; [done|]. unfold isReplyTo in Hre.
  destruct (Comment.repliedTo _) as [r|]; [|done].
  apply Is_true_eq_true, N.eqb_eq in Hre. by rewrite Hre.
Qed.

Lemma Comment_find_all db (f : Comment.t → bool) :
  Comment_find db f 0 0 = hydrate <$> filter (λ kv, f kv.2) (map_to_list (comments db)).
Proof. done. Qed.

Lemma authors_resolve_found db (f : Comment.t → bool) :
  authors_resolve db →
  Forall (λ d, is_Some (users db !! Comment.userId (doc d)))
         (hydrate <$> filter (λ kv, f kv.2) (map_to_list (comments db))).
Proof.
  intros Hres. apply Forall_fmap, Forall_forall.
  intros [k c] [_ Hin%elem_of_map_to_list]%list_elem_of_filter. simpl.
  by apply (Hres k c).
Qed.

(** X12: in a store whose reply counters are consistent and whose comment
    authors all are stored users, getReplies asked without a limit
    (limit 0) and without a skip returns as many replies as the parent's
    replyCount says. *)
Theorem getReplies_agrees_with_replyCount (db : Db) (commId : ObjectId)
    (c : Comment.t) (req : Request) :
  comments_ok db →
  authors_resolve db →
  comments db !! commId = Some c →
  query_limit req = Some 0%N →
  default 0%N (query_skip req) = 0%N →
  ∃ vs, getReplies db commId req = Json vs ∧
        Z.of_nat (length vs) = Comment.replyCount c.
Proof.
  intros [_ Hcons] Hres Hc Hlim Hskip. unfold getReplies.
  rewrite Hlim, Hskip. simpl. rewrite Comment_find_all.
  destruct (commentViews_all db _ (authors_resolve_found db (isReplyTo commId) Hres))
    as [vs Hvs].
  exists vs. rewrite Hvs. split; [done|].
  apply commentViews_inv in Hvs. apply (f_equal length) in Hvs.
  rewrite !length_fmap in Hvs. rewrite Hvs, (Hcons _ _ Hc). f_equal.
  unfold repliesTo. rewrite size_filter_map_to_list. f_equal.
  apply list_filter_iff. intros [k x]; simpl. unfold isReplyTo.
  destruct (Comment.repliedTo x) as [r|]; simpl; [|done].
  rewrite Is_true_true, N.eqb_eq. naive_solver.
Qed.

(** X13: once a stored user has put a top-level comment on an existing
    post, getComments for that post, asked without a limit and without a
    skip, lists the new comment. *)
Theorem new_comment_is_listed (req : Request) (u : Doc User.t) (p : Post) (db : Db) :
  user req = Some u →
  is_Some (users db !! _id u) →
  posts db !! params_id req = Some p →
  query_repliedTo req = None →
  authors_resolve db →
  query_limit req = Some 0%N →
  default 0%N (query_skip req) = 0%N →
  ∃ vs, getComments (exec (createComment req) db) req = Json vs ∧
        mkDoc (nextId db)
              (Comment.mk (params_id req) (_id u) (body req) None 0 (now req))
        ∈ CommentView.comment <$> vs.
Proof.
  intros Hu Hstored Hp Hr Hres Hlim Hskip. unfold exec.
  rewrite (createComment_top req u p db Hu Hp Hr). simpl.
  set (new := Comment.mk _ _ _ _ _ _). set (db' := set_posts _ _).
  assert (authors_resolve db') as Hres'.
  { unfold authors_resolve; subst db'; simpl. by apply map_Forall_insert_2. }
  unfold getComments. rewrite Hlim, Hskip. simpl. rewrite Comment_find_all.
  destruct (commentViews_all db' _
              (authors_resolve_found db' (isTopLevelOf (params_id req)) Hres'))
    as [vs Hvs].
  exists vs. rewrite Hvs. split; [done|].
  apply commentViews_inv in Hvs. rewrite Hvs.
  apply list_elem_of_fmap. exists (nextId db, new). split; [done|].
  apply list_elem_of_filter. split.
  - unfold isTopLevelOf; simpl. by rewrite N.eqb_refl.
  - apply elem_of_map_to_list. subst db'; simpl. apply lookup_insert_eq.
Qed.

(** ** createPost and updatePost *)

(** X14: a post that createPost stores has likedCount 0, commentCount 0, the
    caller as creator and the request's time as date, whatever the body
    says; it sits at a fresh id, the other posts, the likes and the
    comments are untouched, and the one write is the save of that post. *)
Theorem createPost_stores_clean_post (probe : string → option (N * N))
    (b : PostBody) (req : Request) (db db' : Db) (post : Doc Post)
    (t : list Event) :
  posts_fresh db →
  createPost probe b req db = (Json post, db', t) →
  _id post = nextId db ∧ posts db !! _id post = None ∧
  posts db' = <[_id post := doc post]> (posts db) ∧
  likes db' = likes db ∧ comments db' = comments db ∧
  t = [PostSaved post] ∧
  (∃ u, user req = Some u ∧ creator (doc post) = _id u) ∧
  likedCount (doc post) = 0%Z ∧ commentCount (doc post) = 0%Z ∧
  date (doc post) = now req.
Proof.
  intros Hfresh Hrun. destruct (posts_fresh_new db Hfresh) as (Hnew & _ & _).
  destruct (createPost_exec_cases probe b req db)
    as [Hsame|(u & p & Hu & Hcr & Hlc & Hcm & Hdate & Hexec)].
  - exfalso. revert Hrun Hsame. unfold exec, createPost.
    destruct (user req); [|done].
    destruct (newPost _ _ _ ≫= _); simpl; [|done].
    intros [= _ <- _] Hsame. apply (f_equal nextId) in Hsame. simpl in Hsame. lia.
  - rewrite Hexec in Hrun. injection Hrun as <- <- <-. simpl. eauto 12.
Qed.

(** X15: when createPost does not answer with the stored post, because
    validation or the pre-save hook failed, it has written nothing. *)
Theorem createPost_failure_writes_nothing (probe : string → option (N * N))
    (b : PostBody) (req : Request) (db : Db) :
  (∀ post, (createPost probe b req db).1.1 ≠ Json post) →
  exec (createPost probe b req) db = db ∧ trace (createPost probe b req) db = [].
Proof.
  intros Hfail. unfold exec, trace in *. revert Hfail. unfold createPost.
  destruct (user req); [|done].
  destruct (newPost _ _ _ ≫= _); simpl; [|done].
  intros Hfail. by edestruct Hfail.
Qed.

(** X16: when the body names media, the aspectRatio createPost stores is the
    pre-save hook's, not the client's: square for an empty list or an empty
    first entry, else what the measured width and height of the first
    entry give; when the body names no media, it is the body's. *)
Theorem createPost_aspectRatio (probe : string → option (N * N)) (b : PostBody)
    (req : Request) (db db' : Db) (post : Doc Post) (t : list Event) :
  createPost probe b req db = (Json post, db', t) →
  match b_media b with
  | None => aspectRatio (doc post) = b_aspectRatio b
  | Some [] | Some ("" :: _) => aspectRatio (doc post) = Some square
  | Some (url :: _) =>
    ∃ w h, probe url = Some (w, h) ∧
           aspectRatio (doc post)
           = Some (if (h <? w)%N then landscape
                   else if (w <? h)%N then portrait else square)
  end.
Proof.
  unfold createPost. destruct (user req) as [u|]; [|done].
  destruct (newPost b (_id u) (now req)) as [p0|] eqn:Hnew; [|done]. simpl.
  destruct (preSave probe _ p0) as [p|] eqn:Hpre; [|done]. simpl.
  intros [= <- _ _]. simpl.
  assert (media p0 = default [] (b_media b) ∧ aspectRatio p0 = b_aspectRatio b)
    as [Hmedia Hasp].
  { unfold newPost in Hnew. destruct (required (b_title b)); [|done].
    destruct (required (b_description b)); [|done]. by injection Hnew as <-. }
  unfold preSave in Hpre. rewrite Hmedia in Hpre.
  destruct (b_media b) as [[|[|a url] ms]|]; simpl in Hpre;
    try (by injection Hpre as <-).
  destruct (probe (String a url)) as [[w h]|]; [|done].
  injection Hpre as <-. by exists w, h.
Qed.

(** X17: updatePost changes a post only for its creator: when the post does
    not exist or was created by someone else, the answer is an error and
    the store is as it was. *)
Theorem updatePost_only_by_creator (b : PostBody) (req : Request) (u : Doc User.t)
    (db : Db) :
  user req = Some u →
  (∀ p, posts db !! params_id req = Some p → creator p ≠ _id u) →
  updatePost b req db
  = (if validUpdate b then JsonErr 500 "Post not found / Unauthorized"
     else Thrown StoreError, db, []).
Proof.
  intros Hu Hother. unfold updatePost, Post_findOneAndUpdate. rewrite Hu.
  destruct (validUpdate b); simpl; [|done]. unfold mbind, M_bind, mret, M_ret.
  destruct (posts db !! params_id req) as [p|] eqn:Hp; [|done].
  destruct (N.eqb _ _) eqn:Hc; [|done].
  apply N.eqb_eq in Hc. by apply Hother in Hc.
Qed.

(** X18: a successful updatePost is the creator's; it rewrites that one post
    and leaves its creator, likedCount, commentCount and date, every other
    post, the likes and the comments as they were. *)
Theorem updatePost_keeps_counters (b : PostBody) (req : Request) (db db' : Db)
    (post : Doc Post) (t : list Event) :
  updatePost b req db = (Json post, db', t) →
  ∃ u p, user req = Some u ∧ posts db !! params_id req = Some p ∧
         creator p = _id u ∧ _id post = params_id req ∧
         creator (doc post) = creator p ∧
         likedCount (doc post) = likedCount p ∧
         commentCount (doc post) = commentCount p ∧
         date (doc post) = date p ∧
         posts db' = <[params_id req := doc post]> (posts db) ∧
         likes db' = likes db ∧ comments db' = comments db.
Proof.
  unfold updatePost, Post_findOneAndUpdate.
  destruct (user req) as [u|]; [|done].
  destruct (validUpdate b); simpl; [|done]. unfold mbind, M_bind, mret, M_ret.
  destruct (posts db !! params_id req) as [p|] eqn:Hp; [|done].
  destruct (N.eqb_spec (creator p) (_id u)) as [Hc|Hc]; [|done].
  intros [= <- <- <-]. exists u, p. simpl. repeat (split; [done|]). done.
Qed.

(** X19: an update writes the schema's default into every defaulted field
    the body leaves out: a successful update whose body names no tier
    leaves the post free, and one whose body names no media leaves it
    without media, whatever the post had; a title, description or
    aspectRatio the body leaves out is kept. *)
Theorem updatePost_resets_omitted_fields (b : PostBody) (req : Request)
    (db db' : Db) (p : Post) (post : Doc Post) (t : list Event) :
  posts db !! params_id req = Some p →
  updatePost b req db = (Json post, db', t) →
  (b_tier b = None → tier (doc post) = None) ∧
  (b_media b = None → media (doc post) = []) ∧
  (b_type b = None → type (doc post) = PostType.Normal) ∧
  (b_meal b = None → meal (doc post) = None) ∧
  (b_title b = None → title (doc post) = title p) ∧
  (b_description b = None → description (doc post) = description p) ∧
  (b_aspectRatio b = None → aspectRatio (doc post) = aspectRatio p).
Proof.
  intros Hp. unfold updatePost, Post_findOneAndUpdate.
  destruct (user req) as [u|]; [|done].
  destruct (validUpdate b); simpl; [|done]. unfold mbind, M_bind, mret, M_ret.
  cbv beta. rewrite Hp. destruct (N.eqb _ _); [|done].
  intros [= <- _ _]. simpl. repeat split; by intros ->.
Qed.

(** X20: createPost and updatePost keep the store consistent: after either,
    all counters still agree with the collections and Likes are still
    unique per post and user. *)
Theorem post_writes_keep_store_ok (probe : string → option (N * N))
    (b : PostBody) (req : Request) (db : Db) :
  store_ok db →
  store_ok (exec (createPost probe b req) db) ∧
  store_ok (exec (updatePost b req) db).
Proof.
  intros Hok. split; [by apply createPost_store_ok|by apply updatePost_store_ok].
Qed.

(** ** parseToken *)

Lemma strip_prefix_Some p s r : strip_prefix p s = Some r ↔ s = (p ++ r)%string.
Proof.
  revert s. induction p as [|a p IH]; intros s; simpl.
  - change (String.append EmptyString r) with r. split; congruence.
  - change (String.append (String a p) r) with (String a (String.append p r)).
    destruct s as [|c s]; [done|].
    destruct (Ascii.eqb_spec a c) as [->|Hne].
    + rewrite IH. split; congruence.
    + split; [done|]. intros [= ? _]. done.
Qed.

Lemma matchBearer_Some h tok :
  matchBearer h = Some tok ↔ h = ("Bearer " ++ tok)%string ∧ one_line tok.
Proof.
  unfold matchBearer.
  destruct (strip_prefix "Bearer " h) as [rest|] eqn:E.
  - destruct (one_line rest) eqn:Hline.
    + split.
      * intros [= <-]. apply strip_prefix_Some in E. by rewrite Hline.
      * intros [Hh _]. apply strip_prefix_Some in Hh. congruence.
    + split; [done|]. intros [Hh Hl]. apply strip_prefix_Some in Hh.
      assert (rest = tok) as -> by congruence. by rewrite Hline in Hl.
  - split; [done|]. intros [Hh _]. apply strip_prefix_Some in Hh. congruence.
Qed.

(** X21: parseToken leaves a request without answer and without handing it
    on in exactly one case: the Authorization header is "Bearer " with
    nothing after it. *)
Theorem parseToken_stalls_iff (verify : string → Verdict) (db : Db)
    (authorization : option string) (req : Request) :
  parseToken verify db authorization req = Stalled ↔ authorization = Some "Bearer ".
Proof.
  unfold parseToken. split.
  - destruct authorization as [h|]; simpl; [|done].
    destruct (matchBearer h) as [[|a tok]|] eqn:E; [| |done].
    + apply matchBearer_Some in E as [-> _]. done.
    + by destruct (verify _).
  - intros ->. done.
Qed.

(** X22: parseToken hands a request on either untouched, when the header is
    absent or is no Bearer header, or with [req.user] set to what a verified
    token names: a user parseToken attaches is a stored user whose id the
    verified payload carries.  An expired or invalid token is answered with
    401 and never handed on. *)
Theorem parseToken_attaches_verified_users (verify : string → Verdict) (db : Db)
    (authorization : option string) (req req' : Request) :
  parseToken verify db authorization req = Continue req' →
  (authorization ≫= matchBearer = None ∧ req' = req) ∨
  ∃ tok userId,
    authorization = Some ("Bearer " ++ tok)%string ∧ tok ≠ "" ∧
    verify tok = Verified userId ∧
    req' = with_user (userId ≫= findDoc (users db)) req ∧
    ∀ u, user req' = Some u →
         userId = Some (_id u) ∧ users db !! _id u = Some (doc u).
Proof.
  unfold parseToken.
  destruct (authorization ≫= matchBearer) as [[|a tok]|] eqn:E; [done| |].
  - destruct (verify (String a tok)) as [userId| |] eqn:Hv; [|done|done].
    intros [= <-]. right. exists (String a tok), userId.
    destruct authorization as [h|]; [|done]. simpl in E.
    apply matchBearer_Some in E as [-> _]. repeat (split; [done|]).
    simpl. destruct userId as [i|]; simpl; [|done]. unfold findDoc.
    destruct (users db !! i) as [x|] eqn:Hx; simpl; [|done].
    by intros u [= <-].
  - intros [= <-]. by left.
Qed.

(** ** The single-post view and the feed, for every request *)



Lemma Query_exec_Forall db q :
  Forall (λ d, posts db !! _id d = Some (doc d)) (Query_exec db q).
Proof.
  unfold Query_exec. apply Forall_fmap.
  assert (Forall (λ kv : ObjectId * Post, posts db !! kv.1 = Some kv.2)
            (filter (λ kv, q_filter q kv.2) (map_to_list (posts db)))) as Hall.
  { apply Forall_forall.
    intros [k p] [_ Hin%elem_of_map_to_list]%list_elem_of_filter. done. }
  assert (Forall (λ kv : ObjectId * Post, posts db !! kv.1 = Some kv.2)
            (if q_sort q
             then merge_sort date_desc
                    (filter (λ kv, q_filter q kv.2) (map_to_list (posts db)))
             else filter (λ kv, q_filter q kv.2) (map_to_list (posts db))))
    as Hsorted.
  { destruct (q_sort q); [|done]. by rewrite merge_sort_Permutation. }
  destruct (q_skip q), (q_limit q); try destruct (toCount _ =? 0);
    auto using Forall_take, Forall_drop.
Qed.

Lemma feedEntry_stored db d e :
  feedEntry (populate_creator db d) = Some e →
  post e = d ∧ locked e = truthy (tier (doc d)) ∧
  ∃ u, users db !! creator (doc d) = Some u ∧ userHandle e = User.handle u ∧
       userProfilePicture e = User.profilePicture u ∧ userRole e = User.role u.
Proof.
  unfold feedEntry, populate_creator, findDoc; simpl.
  destruct (users db !! creator (doc d)) as [u|]; simpl; [|done].
  intros [= <-]; simpl. split; [by destruct d as [i []]|]. split; [done|].
  by exists u.
Qed.

(** X24: whatever the limit, the skip and the caller, every entry of a feed
    carries a stored post as it is stored, gated or not, with nothing
    redacted, the lock flag of its tier, and the handle, picture and role
    of the stored user who created it. *)
Theorem getFeed_entries_are_stored (db : Db) (req : Request) (es : list FeedEntry) :
  getFeed db req = Res 200 (JFeed es) →
  Forall (λ e, posts db !! _id (post e) = Some (doc (post e)) ∧
               locked e = truthy (tier (doc (post e))) ∧
               ∃ u, users db !! creator (doc (post e)) = Some u ∧
                    userHandle e = User.handle u ∧
                    userProfilePicture e = User.profilePicture u ∧
                    userRole e = User.role u) es.
Proof.
  rewrite getFeed_unfold. intros Hes%feedResponse_entries%mapM_Some.
  unfold feedQuery in Hes. rewrite <- fmap_app, Forall2_fmap_l in Hes.
  assert (Forall (λ d, posts db !! _id d = Some (doc d))
            (Query_exec db
               (skip (halfPlusRem (default 0%N (query_skip req)))
                  (limit (halfPlusRem (default 25%N (query_limit req)))
                     (sort_date_desc (Post_find isFree))))
             ++ Query_exec db
                  (skip (halfPlusRem (default 0%N (query_skip req)))
                     (limit (halfPlusRem (default 25%N (query_limit req)))
                        (sort_date_desc (Post_find isGated)))))) as Hall
    by (apply Forall_app; split; apply Query_exec_Forall).
  revert Hall. induction Hes as [|d e ds es He _ IH]; intros Hall; [done|].
  apply Forall_cons in Hall as [Hd Hall]. constructor; [|by apply IH].
  apply feedEntry_stored in He as (-> & Hl & Hu). done.
Qed.

(** ** The further properties at the fixtures *)

Lemma fixture_store_ok : store_ok fixture.
Proof.
  split; [apply fixture_ledger_ok|].
  split; [split; apply map_Forall_empty|].
  split; [compute_done|].
  split.
  - intros pid uid. unfold likesOfBy. simpl.
    rewrite map_filter_empty, map_size_empty. lia.
  - split; [compute_done|]. split; apply map_Forall_empty.
Defined.

Lemma liked_post_is_listed_witness :
  ∃ ids, getLikedPosts (exec (likePost (asUser 2%N bob 10%N)) fixture)
                       (asUser 2%N bob 10%N) = Json ids ∧
         10%N ∈ ids.
Proof.
  apply (liked_post_is_listed (asUser 2%N bob 10%N) (mkDoc 2%N bob)
           (mkFixturePost "f1" None 5 PostType.Normal None) fixture).
  - reflexivity.
  - vm_compute. reflexivity.
  - apply map_Forall_empty.
Defined.

Lemma unliked_post_is_not_listed_witness :
  ∃ ids, getLikedPosts
           (exec (unlikePost (asUser 2%N bob 10%N))
                 (exec (likePost (asUser 2%N bob 10%N)) fixture))
           (asUser 2%N bob 10%N) = Json ids ∧
         10%N ∉ ids.
Proof.
  apply (unliked_post_is_not_listed (asUser 2%N bob 10%N) (mkDoc 2%N bob)
           (with_likedCount 1 (mkFixturePost "f1" None 5 PostType.Normal None))).
  - reflexivity.
  - vm_compute. reflexivity.
  - vm_compute. lia.
Defined.

Lemma like_then_unlike_witness :
  posts (exec (unlikePost (asUser 2%N bob 10%N))
              (exec (likePost (asUser 2%N bob 10%N)) fixture)) = posts fixture ∧
  likes (exec (unlikePost (asUser 2%N bob 10%N))
              (exec (likePost (asUser 2%N bob 10%N)) fixture)) = likes fixture.
Proof.
  apply (like_then_unlike (asUser 2%N bob 10%N) (mkDoc 2%N bob)
           (mkFixturePost "f1" None 5 PostType.Normal None) fixture).
  - reflexivity.
  - vm_compute. reflexivity.
  - apply map_Forall_empty.
  - vm_compute. reflexivity.
Defined.

Lemma counters_survive_all_requests_witness :
  store_ok fixture ∧
  likedCount (with_commentCount 2
                (with_likedCount 1 (mkFixturePost "f1" None 5 PostType.Normal None)))
  = Z.of_nat (size (likesOf 10%N
      (performAll [ALike (asUser 2%N bob 10%N);
                   AComment (commentRequest 2%N bob 10%N "nice" None);
                   ALike (asUser 1%N alice 10%N);
                   AComment (commentRequest 1%N alice 10%N "re" (Some 101%N));
                   AUnlike (asUser 2%N bob 10%N)] fixture))).
Proof.
  split; [apply fixture_store_ok|].
  apply (proj1 (counters_survive_all_requests
           [ALike (asUser 2%N bob 10%N);
            AComment (commentRequest 2%N bob 10%N "nice" None);
            ALike (asUser 1%N alice 10%N);
            AComment (commentRequest 1%N alice 10%N "re" (Some 101%N));
            AUnlike (asUser 2%N bob 10%N)] fixture fixture_store_ok) 10%N).
  vm_compute. reflexivity.
Defined.

Lemma commentCount_counts_all_comments_witness :
  commentCount (with_commentCount 2 (mkFixturePost "f1" None 5 PostType.Normal None))
  = Z.of_nat (size (commentsOn 10%N
      (performAll [AComment (commentRequest 2%N bob 10%N "nice" None);
                   AComment (commentRequest 1%N alice 10%N "re" (Some 100%N))]
                  fixture))).
Proof.
  apply (commentCount_counts_all_comments
           [AComment (commentRequest 2%N bob 10%N "nice" None);
            AComment (commentRequest 1%N alice 10%N "re" (Some 100%N))]
           fixture fixture_store_ok 10%N).
  vm_compute. reflexivity.
Defined.

Lemma likes_stay_unique_witness :
  size (likesOfBy 10%N 2%N
          (performAll [ALike (asUser 2%N bob 10%N); ALike (asUser 2%N bob 10%N)]
                      fixture)) ≤ 1.
Proof. apply likes_stay_unique, fixture_store_ok. Defined.

Lemma getComments_top_level_witness :
  ∃ vs, getComments fixtureWithReply (anonymous 10%N) = Json vs ∧
        length vs = 1 ∧
        Forall (λ v, Comment.repliedTo (doc (CommentView.comment v)) = None) vs.
Proof.
  eexists. split; [vm_compute; reflexivity|]. split; [reflexivity|].
  eapply Forall_impl.
  - apply (proj1 (getComments_top_level fixtureWithReply (anonymous 10%N) _
                    ltac:(vm_compute; reflexivity))).
  - intros v (_ & _ & Hv). exact Hv.
Defined.

Lemma getReplies_of_comment_witness :
  ∃ vs, getReplies fixtureWithReply 100%N (anonymous 10%N) = Json vs ∧
        length vs = 1 ∧
        getReplies fixtureWithReply 100%N (with_params_id 15%N (anonymous 10%N))
        = Json vs.
Proof.
  eexists. split; [vm_compute; reflexivity|]. split; [reflexivity|].
  apply (proj2 (getReplies_of_comment fixtureWithReply 100%N (anonymous 10%N) _
                  ltac:(vm_compute; reflexivity))).
Defined.

Lemma fixtureWithReply_comments_ok : comments_ok fixtureWithReply.
Proof. apply createComment_comments_ok, fixtureWithComment_ok. Defined.

Lemma fixtureWithReply_authors : authors_resolve fixtureWithReply.
Proof. compute_done. Defined.

Lemma getReplies_agrees_with_replyCount_witness :
  ∃ vs, getReplies fixtureWithReply 100%N (noLimit (anonymous 10%N)) = Json vs ∧
        Z.of_nat (length vs) = 1%Z.
Proof.
  apply (getReplies_agrees_with_replyCount fixtureWithReply 100%N
           (Comment.mk 10%N 2%N "nice" None 1 0) (noLimit (anonymous 10%N))).
  - apply fixtureWithReply_comments_ok.
  - apply fixtureWithReply_authors.
  - vm_compute. reflexivity.
  - reflexivity.
  - reflexivity.
Defined.

Lemma new_comment_is_listed_witness :
  ∃ vs, getComments
          (exec (createComment (noLimit (commentRequest 2%N bob 11%N "first" None)))
                fixtureWithReply)
          (noLimit (commentRequest 2%N bob 11%N "first" None)) = Json vs ∧
        mkDoc 102%N (Comment.mk 11%N 2%N "first" None 0 0)
        ∈ CommentView.comment <$> vs.
Proof.
  apply (new_comment_is_listed (noLimit (commentRequest 2%N bob 11%N "first" None))
           (mkDoc 2%N bob) (mkFixturePost "f2" None 9 PostType.Normal None)
           fixtureWithReply).
  - reflexivity.
  - vm_compute. eexists. reflexivity.
  - vm_compute. reflexivity.
  - reflexivity.
  - apply fixtureWithReply_authors.
  - reflexivity.
  - reflexivity.
Defined.

Lemma fixture_posts_fresh : posts_fresh fixture.
Proof. apply fixture_store_ok. Defined.

Lemma createPost_stores_clean_post_witness :
  ∃ post db' t,
    createPost fixtureProbe recipeBody (asUser 1%N alice 0%N) fixture
    = (Json post, db', t) ∧
    _id post = 100%N ∧ likedCount (doc post) = 0%Z ∧ creator (doc post) = 1%N.
Proof.
  eexists _, _, _. split; [vm_compute; reflexivity|].
  destruct (createPost_stores_clean_post fixtureProbe recipeBody
              (asUser 1%N alice 0%N) fixture _ _ _ fixture_posts_fresh
              ltac:(vm_compute; reflexivity))
    as (H1 & _ & _ & _ & _ & _ & _ & H2 & _).
  split; [exact H1|]. split; [exact H2|]. reflexivity.
Defined.

Lemma createPost_failure_writes_nothing_witness :
  exec (createPost fixtureProbe renameBody (asUser 1%N alice 0%N)) fixture = fixture ∧
  trace (createPost fixtureProbe renameBody (asUser 1%N alice 0%N)) fixture = [].
Proof.
  apply createPost_failure_writes_nothing. intros post. vm_compute. discriminate.
Defined.

Lemma createPost_aspectRatio_witness :
  ∃ post db' t,
    createPost fixtureProbe recipeBody (asUser 1%N alice 0%N) fixture
    = (Json post, db', t) ∧
    aspectRatio (doc post) = Some landscape.
Proof.
  eexists _, _, _. split; [vm_compute; reflexivity|].
  destruct (createPost_aspectRatio fixtureProbe recipeBody
              (asUser 1%N alice 0%N) fixture _ _ _ ltac:(vm_compute; reflexivity))
    as (w & h & Hprobe & Hasp).
  reflexivity.
Defined.

Lemma updatePost_only_by_creator_witness :
  updatePost renameBody (asUser 2%N bob 10%N) fixture
  = (JsonErr 500 "Post not found / Unauthorized", fixture, []).
Proof.
  apply (updatePost_only_by_creator renameBody (asUser 2%N bob 10%N) (mkDoc 2%N bob)).
  - reflexivity.
  - intros p Hp. vm_compute in Hp. injection Hp as <-. simpl. lia.
Defined.

Lemma updatePost_keeps_counters_witness :
  ∃ post db' t,
    updatePost renameBody (asUser 1%N alice 13%N) fixture = (Json post, db', t) ∧
    ∃ u p, user (asUser 1%N alice 13%N) = Some u ∧
           posts fixture !! 13%N = Some p ∧
           likedCount (doc post) = likedCount p.
Proof.
  eexists _, _, _. split; [vm_compute; reflexivity|].
  destruct (updatePost_keeps_counters renameBody (asUser 1%N alice 13%N) fixture
              _ _ _ ltac:(vm_compute; reflexivity))
    as (u & p & Hu & Hp & _ & _ & _ & Hl & _).
  exists u, p. split; [exact Hu|]. split; [exact Hp|]. exact Hl.
Defined.

Lemma updatePost_resets_omitted_fields_witness :
  ∃ post db' t,
    updatePost renameBody (asUser 1%N alice 13%N) fixture = (Json post, db', t) ∧
    tier (doc post) = None ∧ meal (doc post) = None.
Proof.
  eexists _, _, _. split; [vm_compute; reflexivity|].
  destruct (updatePost_resets_omitted_fields renameBody (asUser 1%N alice 13%N)
              fixture _ (mkFixturePost "g1" (Some 30%N) 8 PostType.Meal (Some 20%N))
              _ _ ltac:(vm_compute; reflexivity) ltac:(vm_compute; reflexivity))
    as (Ht & _ & _ & Hm & _).
  split; [apply Ht|apply Hm]; reflexivity.
Defined.

Lemma post_writes_keep_store_ok_witness :
  store_ok (exec (createPost fixtureProbe recipeBody (asUser 1%N alice 0%N)) fixture) ∧
  store_ok (exec (updatePost recipeBody (asUser 1%N alice 0%N)) fixture).
Proof. apply post_writes_keep_store_ok, fixture_store_ok. Defined.

Lemma parseToken_attaches_verified_users_witness :
  parseToken fixtureVerify fixture (Some "Bearer bob-token") (anonymous 10%N)
  = Continue (asUser 2%N bob 10%N) ∧
  ∃ tok userId, fixtureVerify tok = Verified userId ∧ userId = Some 2%N.
Proof.
  split; [vm_compute; reflexivity|].
  destruct (parseToken_attaches_verified_users fixtureVerify fixture
              (Some "Bearer bob-token") (anonymous 10%N) (asUser 2%N bob 10%N)
              ltac:(vm_compute; reflexivity))
    as [[Hnone _]|(tok & userId & _ & _ & Hv & _ & Hu)].
  - vm_compute in Hnone. discriminate.
  - exists tok, userId. split; [exact Hv|].
    apply (Hu (mkDoc 2%N bob)). reflexivity.
Defined.

Lemma getFeed_entries_are_stored_witness :
  ∃ es, getFeed fixture (feedRequest None (Some 3%N) (Some 1%N)) = Res 200 (JFeed es) ∧
        Forall (λ e, posts fixture !! _id (post e) = Some (doc (post e))) es.
Proof.
  eexists. split; [vm_compute; reflexivity|].
  eapply Forall_impl.
  - apply (getFeed_entries_are_stored fixture
             (feedRequest None (Some 3%N) (Some 1%N)) _
             ltac:(vm_compute; reflexivity)).
  - intros e (He & _). exact He.
Defined.

(** ** More on the guarded routes and on paging *)

(** X25: behind requireToken neither getLikedPosts nor updatePost ever
    misses [req.user]: a request without a user is turned away with 401,
    any other gets the list of ids from getLikedPosts, and from updatePost
    anything but the TypeError of reading [req.user._id]. *)
Theorem guarded_handlers_find_the_user (b : PostBody) (req : Request) (db : Db) :
  match route_getLikedPosts db req with
  | Denied s m => user req = None ∧ s = 401 ∧ m = "Unauthorized"
  | Handled r => is_Some (user req) ∧ ∃ ids, r = Json ids
  end ∧
  match route_updatePost b req with
  | Denied s m => user req = None ∧ s = 401 ∧ m = "Unauthorized"
  | Handled c => is_Some (user req) ∧ (c db).1.1 ≠ Thrown (Js TypeError)
  end.
Proof.
  unfold route_getLikedPosts, route_updatePost, route, chain, requireToken,
    getLikedPosts, updatePost, Post_findOneAndUpdate.
  destruct (user req) as [u|]; simpl; [|done].
  split; [by eauto|]. split; [by eauto|].
  destruct (validUpdate b); simpl; [|done]. unfold mbind, M_bind, mret, M_ret.
  destruct (posts db !! params_id req) as [p|]; [|done].
  by destruct (N.eqb _ _).
Qed.

Lemma Comment_find_pages db (f : Comment.t → bool) (l l' s : N) :
  (1 ≤ l)%N → (1 ≤ l')%N →
  Comment_find db f l s ++ Comment_find db f l' (s + l) = Comment_find db f (l + l') s.
Proof.
  intros Hl Hl'. unfold Comment_find.
  destruct (Nat.eqb_spec (N.to_nat l) 0) as [|_]; [lia|].
  destruct (Nat.eqb_spec (N.to_nat l') 0) as [|_]; [lia|].
  destruct (Nat.eqb_spec (N.to_nat (l + l')) 0) as [|_]; [lia|].
  rewrite <- fmap_app. f_equal.
  rewrite !N2Nat.inj_add, <- drop_drop. apply take_take_drop.
Qed.

(** X26: the pages of getComments tile: for limits of at least 1, the page
    of [l] comments after [s] followed by the page of [l'] comments after
    [s + l] is the page of [l + l'] comments after [s]. *)
Theorem getComments_pages_tile (db : Db) (req : Request) (l l' s : N)
    (vs vs' : list CommentView.t) :
  (1 ≤ l)%N → (1 ≤ l')%N →
  getComments db (with_page l s req) = Json vs →
  getComments db (with_page l' (s + l) req) = Json vs' →
  getComments db (with_page (l + l') s req) = Json (vs ++ vs').
Proof.
  intros Hl Hl' Hvs%commentsReply_Json Hvs'%commentsReply_Json.
  unfold getComments in *. simpl in *.
  rewrite <- (Comment_find_pages db _ l l' s) by done.
  rewrite fmap_app. by rewrite (mapM_app_Some _ _ _ _ _ Hvs Hvs').
Qed.


Lemma getComments_pages_tile_witness :
  getComments fixtureWithReply (with_page 2 0 (anonymous 10%N))
  = Json ([CommentView.mk (mkDoc 100%N (Comment.mk 10%N 2%N "nice" None 1 0))
                          "bob" "bob.png" "Consumer"] ++ []).
Proof.
  apply (getComments_pages_tile fixtureWithReply (anonymous 10%N) 1 1 0);
    [lia|lia|vm_compute; reflexivity|vm_compute; reflexivity].
Defined.
